(** * On-demand retrieval for the fast chain, and the in-memory key-value store

    A shallow embedding of two Go packages:
    - [memorydb] (etruedb/memorydb/memorydb.go): the ephemeral key-value
      store behind the database interface;
    - [fast]: the retrieval helpers of package fast, which look into the
      local database first and fall back to the remote channel
      [FastRetrieve].

    Go values are modelled as follows.  A slice is [option (list A)], with
    [None] for the nil slice; a pointer that may be nil is an [option]; an
    [error] result is an [option] of an error value, [None] being nil.
    [uint64] and [uint] are [N] with the wrap-around written out.  A
    function with several results returns a tuple in the order of the Go
    signature.  Locks are not modelled: every operation runs alone. *)

From stdpp Require Import gmap strings list fin_maps sorting.
From Stdlib Require Import NArith.

Local Open Scope N_scope.

Abbreviation byte := Byte.byte.

(** ** Go slices *)

Definition slice (A : Type) : Type := option (list A).

Definition len {A : Type} (s : slice A) : nat :=
  match s with
  | None => 0%nat
  | Some l => length l
  end.

(** The elements of a slice; the nil slice has none. *)
Definition elems {A : Type} (s : slice A) : list A :=
  match s with
  | None => []
  | Some l => l
  end.

(** ** Package memorydb *)

Module memorydb.

Inductive error : Type :=
| errMemorydbClosed
| errMemorydbNotFound.

Definition Error (e : error) : string :=
  match e with
  | errMemorydbClosed => "database closed"
  | errMemorydbNotFound => "not found"
  end.

(** [common.CopyBytes] of the imported go-ethereum package: nil is
    returned as nil, any other slice as a fresh slice with the same
    bytes.  Values carry no identity here, so the fresh slice is the
    same list. *)
Definition CopyBytes (b : slice byte) : slice byte :=
  match b with
  | None => None
  | Some l => Some l
  end.

(** [string(key)]: the bytes of the key read as a string; a nil key is
    the empty string. *)
Definition string_of_key (key : slice byte) : string :=
  String.string_of_list_byte (elems key).

(** The struct: [db] is the Go map, [None] once it was set to nil. *)
Record MemoryDatabase : Type := mkMemoryDatabase {
  db : option (gmap string (slice byte))
}.

Definition New : MemoryDatabase := {| db := Some ∅ |}.

Definition Close (d : MemoryDatabase) : MemoryDatabase * option error :=
  ({| db := None |}, None).

Definition Has (d : MemoryDatabase) (key : slice byte) : bool * option error :=
  match db d with
  | None => (false, Some errMemorydbClosed)
  | Some m =>
      match m !! string_of_key key with
      | Some _ => (true, None)
      | None => (false, None)
      end
  end.

Definition Get (d : MemoryDatabase) (key : slice byte) : slice byte * option error :=
  match db d with
  | None => (None, Some errMemorydbClosed)
  | Some m =>
      match m !! string_of_key key with
      | Some entry => (CopyBytes entry, None)
      | None => (None, Some errMemorydbNotFound)
      end
  end.

Definition Put (d : MemoryDatabase) (key value : slice byte)
  : MemoryDatabase * option error :=
  match db d with
  | None => (d, Some errMemorydbClosed)
  | Some m => ({| db := Some (<[string_of_key key := CopyBytes value]> m) |}, None)
  end.

Definition Delete (d : MemoryDatabase) (key : slice byte)
  : MemoryDatabase * option error :=
  match db d with
  | None => (d, Some errMemorydbClosed)
  | Some m => ({| db := Some (delete (string_of_key key) m) |}, None)
  end.

(** The entry stored under a key, if the database is open and has one. *)
Definition entry (d : MemoryDatabase) (key : slice byte) : option (slice byte) :=
  m ← db d; m !! string_of_key key.

(** [Len]: the number of entries; it does not check for closed-ness, and
    the length of the nil map is zero. *)
Definition Len (d : MemoryDatabase) : nat :=
  match db d with
  | None => 0%nat
  | Some m => size m
  end.

(** What a call does when it does not return: a run-time panic. *)
Inductive result (A : Type) : Type :=
| Ok (a : A)
| Panic (msg : string).
Global Arguments Ok {A} a.
Global Arguments Panic {A} msg.

(** Go's [int] is 64 bits wide and wraps around. *)
Definition wrap_int (z : Z) : Z := ((z + 2 ^ 63) mod 2 ^ 64 - 2 ^ 63)%Z.

(** [keyvalue]: a key-value tuple tagged with a deletion field. *)
Record keyvalue : Type := mkKeyvalue {
  kv_key : slice byte;
  kv_value : slice byte;
  kv_delete : bool
}.

(** [memoryBatch]: the queued writes and their size.  The pointer to the
    host database is not part of the value: [batch_Write] is given the host
    as it is when the batch is written. *)
Record memoryBatch : Type := mkMemoryBatch {
  writes : list keyvalue;
  batch_size : Z
}.

Definition NewBatch : memoryBatch := {| writes := []; batch_size := 0 |}.

Definition batch_Put (b : memoryBatch) (key value : slice byte)
  : memoryBatch * option error :=
  ({| writes := writes b ++ [{| kv_key := CopyBytes key; kv_value := CopyBytes value;
                                kv_delete := false |}];
      batch_size := wrap_int (batch_size b + Z.of_nat (len value)) |}, None).

Definition batch_Delete (b : memoryBatch) (key : slice byte)
  : memoryBatch * option error :=
  ({| writes := writes b ++ [{| kv_key := CopyBytes key; kv_value := None;
                                kv_delete := true |}];
      batch_size := wrap_int (batch_size b + 1) |}, None).

Definition ValueSize (b : memoryBatch) : Z := batch_size b.

Definition Reset (b : memoryBatch) : memoryBatch :=
  {| writes := []; batch_size := 0 |}.

(** The loop of [Write] over the queued writes, on the map of the host:
    a deletion from the nil map does nothing, an assignment to an entry of
    the nil map panics. *)
Fixpoint apply_writes (ws : list keyvalue) (m : option (gmap string (slice byte)))
    {struct ws} : result (option (gmap string (slice byte))) :=
  match ws with
  | [] => Ok m
  | kv :: ws =>
      if kv_delete kv then
        apply_writes ws (delete (string_of_key (kv_key kv)) <$> m)
      else
        match m with
        | None => Panic "assignment to entry in nil map"
        | Some m =>
            apply_writes ws (Some (<[string_of_key (kv_key kv) := kv_value kv]> m))
        end
  end.

(** [Write] flushes the queued writes to the host; the batch itself is
    left as it is. *)
Definition batch_Write (b : memoryBatch) (d : MemoryDatabase)
  : result (MemoryDatabase * option error) :=
  match apply_writes (writes b) (db d) with
  | Ok m => Ok ({| db := m |}, None)
  | Panic msg => Panic msg
  end.

(** Go compares strings byte by byte, as [String.leb] does. *)
Definition string_le (s1 s2 : string) : Prop := String.leb s1 s2 = true.

Global Instance string_le_dec (s1 s2 : string) : Decision (string_le s1 s2).
Proof. unfold string_le. apply _. Defined.

(** [memoryIterator]: the keys that are left, in order, with their values. *)
Record memoryIterator : Type := mkMemoryIterator {
  inited : bool;
  keys : list string;
  values : list (slice byte)
}.

(** [NewIteratorWithPrefix]: the keys with the prefix are collected from
    the map (none from the nil map), sorted with [sort.Strings], and the
    values are read from the map under the sorted keys. *)
Definition NewIteratorWithPrefix (d : MemoryDatabase) (prefix : slice byte)
  : memoryIterator :=
  let pr := string_of_key prefix in
  let m := default ∅ (db d) in
  let keys :=
    merge_sort string_le
      (filter (λ key, String.prefix pr key = true) (map_to_list m).*1) in
  {| inited := false;
     keys := keys;
     values := (λ key, default None (m !! key)) <$> keys |}.

Definition NewIterator (d : MemoryDatabase) : memoryIterator :=
  NewIteratorWithPrefix d None.

(** [Next]: the first call only marks the iterator as initialised, later
    calls drop the entry in front; the result tells whether an entry is
    left. *)
Definition Next (it : memoryIterator) : memoryIterator * bool :=
  if inited it then
    let it' :=
      match keys it with
      | [] => it
      | _ :: ks => {| inited := true; keys := ks; values := tail (values it) |}
      end in
    (it', bool_decide (0 < length (keys it'))%nat)
  else
    ({| inited := true; keys := keys it; values := values it |},
     bool_decide (0 < length (keys it))%nat).

Definition iterator_Error (it : memoryIterator) : option error := None.

(** [Key]: the key in front as bytes, nil when none is left. *)
Definition Key (it : memoryIterator) : slice byte :=
  match keys it with
  | key :: _ => Some (String.list_byte_of_string key)
  | [] => None
  end.

(** [Value]: the value in front, nil when none is left. *)
Definition Value (it : memoryIterator) : slice byte :=
  match values it with
  | value :: _ => value
  | [] => None
  end.

Definition Release (it : memoryIterator) : memoryIterator :=
  {| inited := inited it; keys := []; values := [] |}.

(** The loop [for it.Next() { ... it.Key() ... it.Value() ... }], run for
    at most [fuel] rounds: the pairs it sees, and whether it came to its
    end. *)
Fixpoint drain (fuel : nat) (it : memoryIterator) {struct fuel}
  : list (slice byte * slice byte) * bool :=
  match fuel with
  | O => ([], false)
  | S fuel =>
      let '(it, more) := Next it in
      if more then
        let '(seen, done) := drain fuel it in ((Key it, Value it) :: seen, done)
      else ([], true)
  end.

End memorydb.

(** ** Package fast: data *)

(** [common.Hash] is a 32-byte array, read here as the number it spells;
    [common.Hash{}] is zero. *)
Abbreviation Hash := N.

Definition zeroHash : Hash := 0.

(** [uint64] arithmetic wraps around. *)
Definition two64 : N := 2 ^ 64.

Definition add64 (a b : N) : N := (a + b) mod two64.

Definition sub64 (a b : N) : N := (a + two64 - b mod two64) mod two64.

Definition mul64 (a b : N) : N := (a * b) mod two64.

(** The error values the package returns.  [ErrNoHeader] and
    [ErrNoTrustedBloomTrie] are its own sentinels; every error made by a
    collaborator (the remote channel, the decoder, the receipt derivation,
    the database) is an [ErrOther] with its message. *)
Inductive error : Type :=
| ErrNoHeader
| ErrNoTrustedBloomTrie
| ErrOther (msg : string).

(** The types and primitives of core/types, crypto and rlp, which are not
    part of the files at hand, are parameters of the development.
    Receipts are reached through the two fields the code reads. *)
Class ChainTypes : Type := {
  Header : Type;
  Transaction : Type;
  Log : Type;
  Receipt : Type;
  ChainConfig : Type;
  PbftSign : Type;
  CommitteeMember : Type;
  (** [header.Hash()] and [header.Number.Uint64()] *)
  Header_Hash : Header → Hash;
  Header_Number : Header → N;
  (** [header.Hash()] when [header] is the nil pointer: the hash the
      method computes then, or [None] if the call dereferences nil *)
  nil_Header_Hash : option Hash;
  (** [tx.Hash()] *)
  Transaction_Hash : Transaction → Hash;
  (** the fields [TxHash] and [Logs] of a receipt *)
  Receipt_TxHash : Receipt → Hash;
  Receipt_Logs : Receipt → slice Log;
  (** [rlp.Decode] of a block body: the error and the three fields of the
      decoded [types.Body] *)
  rlp_DecodeBody :
    list byte →
    option error * (list Transaction * list PbftSign * list CommitteeMember);
  (** [receipts.DeriveFields(config, hash, number, txs)]: the error and the
      receipts as the call leaves them *)
  DeriveFields :
    option ChainConfig → Hash → N → list Transaction → list Receipt →
    option error * list Receipt
}.

Section fast_data.
Context `{ChainTypes}.

Record Body : Type := mkBody {
  Transactions : list Transaction;
  Signs : list PbftSign;
  Infos : list CommitteeMember
}.

(** Modelled from the spec: [types.Block] with [NewBlockWithHeader] and
    [WithBody] (core/types is not among the files): a block is its
    header together with the three collections of its body. *)
Record Block : Type := mkBlock {
  block_header : Header;
  block_transactions : list Transaction;
  block_signs : list PbftSign;
  block_infos : list CommitteeMember
}.

Definition NewBlockWithHeader (header : Header) : Block :=
  {| block_header := header; block_transactions := [];
     block_signs := []; block_infos := [] |}.

Definition WithBody (b : Block) (txs : list Transaction)
    (signs : list PbftSign) (infos : list CommitteeMember) : Block :=
  {| block_header := block_header b; block_transactions := txs;
     block_signs := signs; block_infos := infos |}.

Definition Block_Hash (b : Block) : Hash := Header_Hash (block_header b).

Definition Block_NumberU64 (b : Block) : N := Header_Number (block_header b).

(** Modelled from the spec: the Local Store behind [odr.Database()] as the
    accessors of core/rawdb see it (core/rawdb is not among the files):
    one finite map per kind of entry, a read returning what was written
    under the key. *)
Record Store : Type := mkStore {
  canonical : gmap N Hash;
  headers : gmap (Hash * N) Header;
  bodies : gmap (Hash * N) (list byte);
  receipts : gmap (Hash * N) (list Receipt);
  chainConfigs : gmap Hash ChainConfig;
  bloomBits : gmap (N * N * Hash) (list byte);
  bloomTrieRoots : gmap (N * Hash) Hash
}.

(** Modelled from the spec: [rawdb.ReadCanonicalHash]: the zero hash when nothing is recorded. *)
Definition ReadCanonicalHash (db : Store) (number : N) : Hash :=
  default zeroHash (canonical db !! number).

(** Modelled from the spec: [rawdb.ReadHeader]: nil when the header is not stored. *)
Definition ReadHeader (db : Store) (hash : Hash) (number : N) : option Header :=
  headers db !! (hash, number).

(** Modelled from the spec: [rawdb.ReadBodyRLP]: nil when the body is not stored. *)
Definition ReadBodyRLP (db : Store) (hash : Hash) (number : N) : slice byte :=
  bodies db !! (hash, number).

(** Modelled from the spec: [rawdb.ReadRawReceipts]: nil when no receipts are stored. *)
Definition ReadRawReceipts (db : Store) (hash : Hash) (number : N) : slice Receipt :=
  receipts db !! (hash, number).

(** Modelled from the spec: [rawdb.WriteReceipts]: the receipts are put
    under the key of the block. *)
Definition WriteReceipts (db : Store) (hash : Hash) (number : N)
    (rs : slice Receipt) : Store :=
  {| canonical := canonical db; headers := headers db; bodies := bodies db;
     receipts := <[(hash, number) := elems rs]> (receipts db);
     chainConfigs := chainConfigs db; bloomBits := bloomBits db;
     bloomTrieRoots := bloomTrieRoots db |}.

(** Modelled from the spec: [rawdb.ReadChainConfig]: nil when none is stored for the genesis. *)
Definition ReadChainConfig (db : Store) (genesis : Hash) : option ChainConfig :=
  chainConfigs db !! genesis.

(** Modelled from the spec: [rawdb.ReadBloomBits]: the stored vector, or the error of the failed
    lookup. *)
Definition ReadBloomBits (db : Store) (bit section : N) (head : Hash)
  : slice byte * option error :=
  match bloomBits db !! (bit, section, head) with
  | Some bits => (Some bits, None)
  | None => (None, Some (ErrOther "not found"))
  end.

(** Modelled from the spec: [GetBloomTrieRoot] (another file of the
    package): the trie root stored for a section and its head, zero when
    there is none. *)
Definition GetBloomTrieRoot (db : Store) (num : N) (sectionHead : Hash) : Hash :=
  default zeroHash (bloomTrieRoots db !! (num, sectionHead)).

End fast_data.

(** ** Package fast: requests, the backend and the effects *)

(** [core.TxStatus] *)
Inductive TxStatusCode : Type :=
| TxStatusUnknown
| TxStatusQueued
| TxStatusPending
| TxStatusIncluded.

Global Instance TxStatusCode_eq_dec : EqDecision TxStatusCode.
Proof. solve_decision. Defined.

(** The locator of a transaction: [rawdb.TxLookupEntry]. *)
Record TxLookupEntry : Type := mkTxLookupEntry {
  BlockHash : Hash;
  BlockIndex : N;
  Index : N
}.

(** One answer of a status request; [Lookup] is a pointer. *)
Record TxStatus : Type := mkTxStatus {
  Status : TxStatusCode;
  Lookup : option TxLookupEntry
}.

(** The two sizes of [IndexerConfig] that the code reads. *)
Record IndexerConfig : Type := mkIndexerConfig {
  BloomSize : N;
  BloomTrieSize : N
}.

(** The bloom trie indexer: [Sections()] gives the number of stored
    sections, the number of the last block of the last one and its hash;
    [SectionHead(i)] the hash of the last block of section [i]. *)
Record ChainIndexer : Type := mkChainIndexer {
  Sections : N * N * Hash;
  SectionHead : N → Hash
}.

Section fast_effects.
Context `{ChainTypes}.

(** The request structs.  The last field of each is the one the remote
    channel fills in.  Two requests have fields [Hash] and [Number], told
    apart here by a prefix, and the field [Status] of the status request is
    [StatusList], next to the field [Status] of its entries. *)
Record BlockRequest : Type := mkBlockRequest {
  br_Hash : Hash;
  br_Number : N;
  Rlp : slice byte
}.

Record ReceiptsRequest : Type := mkReceiptsRequest {
  rr_Hash : Hash;
  rr_Number : N;
  rr_Header : option Header;
  Untrusted : bool;
  Receipts : slice Receipt
}.

Record BloomRequest : Type := mkBloomRequest {
  BloomTrieRoot : Hash;
  BloomTrieNum : N;
  BitIdx : N;
  SectionIndexList : slice N;
  Config : IndexerConfig;
  BloomBits : slice (slice byte)
}.

Record TxStatusRequest : Type := mkTxStatusRequest {
  Hashes : slice Hash;
  StatusList : slice TxStatus
}.

(** The request types behind the interface [OdrRequest]. *)
Inductive kind : Type := KBlock | KReceipts | KBloom | KTxStatus.

Definition request (k : kind) : Type :=
  match k with
  | KBlock => BlockRequest
  | KReceipts => ReceiptsRequest
  | KBloom => BloomRequest
  | KTxStatus => TxStatusRequest
  end.

Inductive OdrRequest : Type :=
| ReqBlock (r : BlockRequest)
| ReqReceipts (r : ReceiptsRequest)
| ReqBloom (r : BloomRequest)
| ReqTxStatus (r : TxStatusRequest).

Definition pack (k : kind) : request k → OdrRequest :=
  match k with
  | KBlock => ReqBlock
  | KReceipts => ReqReceipts
  | KBloom => ReqBloom
  | KTxStatus => ReqTxStatus
  end.

(** The interface [OdrBackend] without its database, which is part of
    the world below.  [FastRetrieve] gets a pointer to a request and
    returns an error; here it returns the request as the call leaves it
    together with the error.  The context argument, which only carries
    cancellation into the channel, is left out. *)
Record OdrBackend : Type := mkOdrBackend {
  BloomTrieIndexer : option ChainIndexer;
  FastIndexerConfig : IndexerConfig;
  FastRetrieve : ∀ k : kind, request k → request k * option error
}.

(** The calls of a run that are recorded next to its results: a request
    handed to [FastRetrieve], a call of [DeriveFields] and a call of
    [rawdb.WriteReceipts], each for the block named. *)
Inductive Event : Type :=
| EvRetrieve (r : OdrRequest)
| EvDeriveFields (hash : Hash) (number : N)
| EvWriteReceipts (hash : Hash) (number : N) (rs : slice Receipt).

(** The local database and the events so far, latest first. *)
Record World : Type := mkWorld {
  Database : Store;
  events : list Event
}.

(** A call returns in a new world, panics, or never comes back. *)
Inductive outcome (A : Type) : Type :=
| Returns (a : A) (w : World)
| Panics (msg : string)
| Diverges.
Global Arguments Returns {A} a w.
Global Arguments Panics {A} msg.
Global Arguments Diverges {A}.

Definition M (A : Type) : Type := World → outcome A.

Global Instance M_ret : MRet M := λ A a w, Returns a w.

Global Instance M_bind : MBind M := λ A B f m w,
  match m w with
  | Returns a w' => f a w'
  | Panics msg => Panics msg
  | Diverges => Diverges
  end.

Definition panic {A : Type} (msg : string) : M A := λ _, Panics msg.

Definition diverge {A : Type} : M A := λ _, Diverges.

Definition getDatabase : M Store := λ w, Returns (Database w) w.

Definition putDatabase (db : Store) : M unit := λ w,
  Returns () {| Database := db; events := events w |}.

Definition emit (e : Event) : M unit := λ w,
  Returns () {| Database := Database w; events := e :: events w |}.

(** [odr.FastRetrieve(ctx, r)] *)
Definition retrieve (odr : OdrBackend) (k : kind) (r : request k)
  : M (request k * option error) :=
  _ ← emit (EvRetrieve (pack k r)); mret (FastRetrieve odr k r).

End fast_effects.

(** ** Package fast: the retrieval functions *)

Section fast_functions.
Context `{ChainTypes}.
Variable odr : OdrBackend.

Definition GetHeaderByNumber (number : N) : M (option Header * option error) :=
  db ← getDatabase;
  let hash := ReadCanonicalHash db number in
  if bool_decide (hash ≠ zeroHash) then
    (* if there is a canonical hash, there is a header too *)
    match ReadHeader db hash number with
    | None => panic "Canonical hash present but header not found"
    | Some header => mret (Some header, None)
    end
  else mret (None, None).

Definition GetCanonicalHash (number : N) : M (Hash * option error) :=
  db ← getDatabase;
  let hash := ReadCanonicalHash db number in
  if bool_decide (hash ≠ zeroHash) then mret (hash, None)
  else
    '(header, err) ← GetHeaderByNumber number;
    match header with
    | Some h => mret (Header_Hash h, None)
    | None => mret (zeroHash, err)
    end.

Definition GetBodyRLP (hash : Hash) (number : N) : M (slice byte * option error) :=
  db ← getDatabase;
  match ReadBodyRLP db hash number with
  | Some data => mret (Some data, None)
  | None =>
      let r := {| br_Hash := hash; br_Number := number; Rlp := None |} in
      '(r, err) ← retrieve odr KBlock r;
      match err with
      | Some e => mret (None, Some e)
      | None => mret (Rlp r, None)
      end
  end.

Definition GetBody (hash : Hash) (number : N) : M (option Body * option error) :=
  '(data, err) ← GetBodyRLP hash number;
  match err with
  | Some e => mret (None, Some e)
  | None =>
      match rlp_DecodeBody (elems data) with
      | (Some e, _) => mret (None, Some e)
      | (None, (txs, signs, infos)) =>
          mret (Some {| Transactions := txs; Signs := signs; Infos := infos |}, None)
      end
  end.

Definition GetBlock (hash : Hash) (number : N) : M (option Block * option error) :=
  db ← getDatabase;
  match ReadHeader db hash number with
  | None => mret (None, Some ErrNoHeader)
  | Some header =>
      '(body, err) ← GetBody hash number;
      match err, body with
      | Some e, _ => mret (None, Some e)
      | None, None => panic "invalid memory address or nil pointer dereference"
      | None, Some body =>
          mret (Some (WithBody (NewBlockWithHeader header)
                        (Transactions body) (Signs body) (Infos body)), None)
      end
  end.

(** [len(receipts) > 0 && receipts[0].TxHash == (common.Hash{})] *)
Definition underived (rs : slice Receipt) : bool :=
  match elems rs with
  | [] => false
  | r :: _ => bool_decide (Receipt_TxHash r = zeroHash)
  end.

(** Lines 106 to 113 of [GetBlockReceipts]: the receipts as stored, or on
    a miss the receipts of the response together with the error of the
    request. *)
Definition raw_receipts (hash : Hash) (number : N)
  : M (slice Receipt * option error) :=
  db ← getDatabase;
  match ReadRawReceipts db hash number with
  | Some rs => mret (Some rs, None)
  | None =>
      let r := {| rr_Hash := hash; rr_Number := number; rr_Header := None;
                  Untrusted := false; Receipts := None |} in
      '(r, err) ← retrieve odr KReceipts r;
      mret (Receipts r, err)
  end.

Definition GetBlockReceipts (hash : Hash) (number : N)
  : M (slice Receipt * option error) :=
  (* Assume receipts are already stored locally and attempt to retrieve *)
  '(rs, err) ← raw_receipts hash number;
  match err with
  | Some e => mret (None, Some e)
  | None =>
      (* If the receipts are incomplete, fill the derived fields *)
      if underived rs then
        '(block, err) ← GetBlock hash number;
        match err, block with
        | Some e, _ => mret (None, Some e)
        | None, None => panic "invalid memory address or nil pointer dereference"
        | None, Some block =>
            db ← getDatabase;
            let genesis := ReadCanonicalHash db 0 in
            let config := ReadChainConfig db genesis in
            _ ← emit (EvDeriveFields hash number);
            match DeriveFields config (Block_Hash block) (Block_NumberU64 block)
                    (block_transactions block) (elems rs) with
            | (Some e, _) => mret (None, Some e)
            | (None, rs') =>
                _ ← emit (EvWriteReceipts hash number (Some rs'));
                db ← getDatabase;
                _ ← putDatabase (WriteReceipts db hash number (Some rs'));
                mret (Some rs', None)
            end
        end
      else mret (rs, None)
  end.

(** [logs[i] = receipt.Logs] for every receipt *)
Definition logs_of (rs : slice Receipt) : slice (slice Log) :=
  Some (Receipt_Logs <$> elems rs).

Definition GetBlockLogs (hash : Hash) (number : N)
  : M (slice (slice Log) * option error) :=
  '(rs, err) ← GetBlockReceipts hash number;
  match err with
  | Some e => mret (None, Some e)
  | None => mret (logs_of rs, None)
  end.

Definition GetUntrustedBlockLogs (header : Header)
  : M (slice (slice Log) * option error) :=
  let hash := Header_Hash header in
  let number := Header_Number header in
  db ← getDatabase;
  match ReadRawReceipts db hash number with
  | Some rs => mret (logs_of (Some rs), None)
  | None =>
      let r := {| rr_Hash := hash; rr_Number := number; rr_Header := Some header;
                  Untrusted := true; Receipts := None |} in
      '(r, err) ← retrieve odr KReceipts r;
      match err with
      | Some e => mret (None, Some e)
      | None => mret (logs_of (Receipts r), None)
      end
  end.

(** *** GetBloomBits *)

(** The variables of the reconciliation loop: the number of trusted bloom
    trie sections, the number and the hash of the head of the last one, and
    the canonical hash the database has at that number. *)
Record boundary : Type := mkBoundary {
  bloomTrieCount : N;
  sectionHeadNum : N;
  sectionHead : Hash;
  canonicalHash : Hash
}.

(** The loop condition:
    [bloomTrieCount > 0 && canonicalHash != sectionHead &&
     canonicalHash != (common.Hash{})] *)
Definition stale (b : boundary) : bool :=
  bool_decide (0 < bloomTrieCount b)
  && bool_decide (canonicalHash b ≠ sectionHead b)
  && bool_decide (canonicalHash b ≠ zeroHash).

(** The loop body. *)
Definition rollback (db : Store) (indexer : ChainIndexer) (b : boundary) : boundary :=
  let count := sub64 (bloomTrieCount b) 1 in
  if bool_decide (0 < count) then
    let num := sub64 (mul64 count (BloomTrieSize (FastIndexerConfig odr))) 1 in
    {| bloomTrieCount := count;
       sectionHeadNum := num;
       sectionHead := SectionHead indexer (sub64 count 1);
       canonicalHash := ReadCanonicalHash db num |}
  else
    {| bloomTrieCount := count;
       sectionHeadNum := sectionHeadNum b;
       sectionHead := sectionHead b;
       canonicalHash := canonicalHash b |}.

(** The loop, run for at most [fuel] iterations: [None] when the fuel is
    used up before the condition fails. *)
Fixpoint reconcile_loop (fuel : nat) (db : Store) (indexer : ChainIndexer)
    (b : boundary) {struct fuel} : option boundary :=
  if stale b then
    match fuel with
    | O => None
    | S fuel => reconcile_loop fuel db indexer (rollback db indexer b)
    end
  else Some b.

(** The values the loop starts from. *)
Definition recorded (db : Store) (indexer : ChainIndexer) : boundary :=
  let '(count, num, head) := Sections indexer in
  {| bloomTrieCount := count; sectionHeadNum := num; sectionHead := head;
     canonicalHash := ReadCanonicalHash db num |}.

(** Lines 180 to 196: the trusted boundary after reconciliation.  Without an
    indexer the variables keep their zero values. *)
Definition reconcile (db : Store) : option boundary :=
  match BloomTrieIndexer odr with
  | None =>
      Some {| bloomTrieCount := 0; sectionHeadNum := 0;
              sectionHead := zeroHash; canonicalHash := zeroHash |}
  | Some indexer =>
      let b := recorded db indexer in
      reconcile_loop (N.to_nat (bloomTrieCount b)) db indexer b
  end.

(** [append(s, x)] *)
Definition append {A : Type} (s : slice A) (x : A) : slice A :=
  Some (elems s ++ [x]).

(** The variables of the loop over the requested sections. *)
Record scan_state : Type := mkScan {
  result : list (slice byte);
  reqList : slice N;
  reqIdx : slice nat
}.

(** The closing block of a section: [(sectionIdx+1)*BloomSize-1] *)
Definition section_end (sectionIdx : N) : N :=
  sub64 (mul64 (add64 sectionIdx 1) (BloomSize (FastIndexerConfig odr))) 1.

(** The local lookup of one section. *)
Definition local_bits (db : Store) (bitIdx sectionIdx : N)
  : slice byte * option error :=
  ReadBloomBits db bitIdx sectionIdx (ReadCanonicalHash db (section_end sectionIdx)).

(** The loop over [sectionIdxList] from position [i] on; an early return
    with an error is [inr]. *)
Fixpoint scan (db : Store) (bitIdx count : N) (i : nat) (l : list N)
    (st : scan_state) {struct l} : scan_state + error :=
  match l with
  | [] => inl st
  | sectionIdx :: l =>
      match local_bits db bitIdx sectionIdx with
      | (bloomBits, None) =>
          scan db bitIdx count (S i) l
            {| result := <[i := bloomBits]> (result st);
               reqList := reqList st; reqIdx := reqIdx st |}
      | (_, Some _) =>
          if bool_decide (count ≤ sectionIdx) then inr ErrNoTrustedBloomTrie
          else
            scan db bitIdx count (S i) l
              {| result := result st;
                 reqList := append (reqList st) sectionIdx;
                 reqIdx := append (reqIdx st) i |}
      end
  end.

(** [for i, idx := range reqIdx { result[idx] = r.BloomBits[i] }] from
    position [i] on; [None] when [r.BloomBits[i]] is out of range. *)
Fixpoint scatter (bits : list (slice byte)) (i : nat) (idxs : list nat)
    (res : list (slice byte)) {struct idxs} : option (list (slice byte)) :=
  match idxs with
  | [] => Some res
  | idx :: idxs =>
      match bits !! i with
      | None => None
      | Some b => scatter bits (S i) idxs (<[idx := b]> res)
      end
  end.

Definition GetBloomBits (bitIdx : N) (sectionIdxList : slice N)
  : M (slice (slice byte) * option error) :=
  db ← getDatabase;
  let result0 := replicate (len sectionIdxList) (None : slice byte) in
  match reconcile db with
  | None => diverge
  | Some b =>
      let bloomTrieCount := bloomTrieCount b in
      match scan db bitIdx bloomTrieCount 0 (elems sectionIdxList)
              {| result := result0; reqList := None; reqIdx := None |} with
      | inr e => mret (None, Some e)
      | inl st =>
          match reqList st with
          | None => mret (Some (result st), None)
          | Some _ =>
              let r := {| BloomTrieRoot :=
                            GetBloomTrieRoot db (sub64 bloomTrieCount 1) (sectionHead b);
                          BloomTrieNum := sub64 bloomTrieCount 1;
                          BitIdx := bitIdx;
                          SectionIndexList := reqList st;
                          Config := FastIndexerConfig odr;
                          BloomBits := None |} in
              '(r, err) ← retrieve odr KBloom r;
              match err with
              | Some e => mret (None, Some e)
              | None =>
                  match scatter (elems (BloomBits r)) 0 (elems (reqIdx st)) (result st) with
                  | None => panic "index out of range"
                  | Some res => mret (Some res, None)
                  end
              end
          end
      end
  end.

(** *** GetTransaction *)

(** The five results of a return without a transaction. *)
Definition no_transaction (err : option error)
  : option Transaction * Hash * N * N * option error :=
  (None, zeroHash, 0, 0, err).

(** [header.Hash()] on the pointer a lookup returned. *)
Definition pointer_Hash (header : option Header) : option Hash :=
  match header with
  | Some h => Some (Header_Hash h)
  | None => nil_Header_Hash
  end.

Definition GetTransaction (txHash : Hash)
  : M (option Transaction * Hash * N * N * option error) :=
  let r := {| Hashes := Some [txHash]; StatusList := None |} in
  '(r, err) ← retrieve odr KTxStatus r;
  match err with
  | Some e => mret (no_transaction (Some e))
  | None =>
      match elems (StatusList r) with
      | [] => panic "index out of range"
      | st :: _ =>
          if bool_decide (Status st ≠ TxStatusIncluded) then mret (no_transaction None)
          else
            match Lookup st with
            | None => panic "invalid memory address or nil pointer dereference"
            | Some pos =>
                (* first ensure that we have the header, and verify that this
                   is a canonical block by checking the hash of the header *)
                '(header, err) ← GetHeaderByNumber (BlockIndex pos);
                match err with
                | Some e => mret (no_transaction (Some e))
                | None =>
                    match pointer_Hash header with
                    | None => panic "invalid memory address or nil pointer dereference"
                    | Some hash =>
                        if bool_decide (hash ≠ BlockHash pos) then mret (no_transaction None)
                        else
                          '(body, err) ← GetBody (BlockHash pos) (BlockIndex pos);
                          match err, body with
                          | Some e, _ => mret (no_transaction (Some e))
                          | None, None =>
                              panic "invalid memory address or nil pointer dereference"
                          | None, Some body =>
                              if bool_decide
                                   (N.of_nat (length (Transactions body)) ≤ Index pos)
                              then mret (no_transaction None)
                              else
                                match Transactions body !! N.to_nat (Index pos) with
                                | None => panic "index out of range"
                                | Some tx =>
                                    if bool_decide (Transaction_Hash tx ≠ txHash)
                                    then mret (no_transaction None)
                                    else mret (Some tx, BlockHash pos, BlockIndex pos,
                                               Index pos, None)
                                end
                          end
                    end
                end
            end
      end
  end.

End fast_functions.

(** ** Package params *)

(** A [*big.Int] is an [option Z], nil being [None]. *)
Module params.

Record BlockConfig : Type := mkBlockConfig {
  FastNumber : option Z;
  SnailNumber : option Z
}.

Record MinervaConfig : Type := mkMinervaConfig {
  MinimumDifficulty : option Z;
  MinimumFruitDifficulty : option Z;
  DurationLimit : option Z
}.

Record ChainConfig : Type := mkChainConfig {
  ChainID : option Z;
  Minerva : option MinervaConfig;
  TIP3 : option BlockConfig;
  TIP5 : option BlockConfig
}.

(** [isForked] returns whether a fork scheduled at block [s] is active at
    the given head block. *)
Definition isForked (s head : option Z) : bool :=
  match s, head with
  | Some s, Some head => bool_decide (s ≤ head)%Z
  | _, _ => false
  end.

Definition configNumEqual (x y : option Z) : bool :=
  match x with
  | None => bool_decide (y = None)
  | Some x' =>
      match y with
      | None => bool_decide (x = None)
      | Some y' => bool_decide (x' = y')
      end
  end.

(** [isForkIncompatible] returns true if a fork scheduled at [s1] cannot be
    rescheduled to block [s2] because head is already past the fork. *)
Definition isForkIncompatible (s1 s2 head : option Z) : bool :=
  (isForked s1 head || isForked s2 head) && negb (configNumEqual s1 s2).

Record ConfigCompatError : Type := mkConfigCompatError {
  What : string;
  StoredConfig : option Z;
  NewConfig : option Z;
  RewindTo : N
}.

(** [rew.Uint64()]: the low 64 bits of the magnitude. *)
Definition Uint64 (z : Z) : N := Z.to_N (Z.abs z) mod two64.

Definition newCompatError (what : string) (storedblock newblock : option Z)
  : ConfigCompatError :=
  let rew :=
    match storedblock, newblock with
    | None, _ => newblock
    | Some s, None => storedblock
    | Some s, Some n => if bool_decide (s < n)%Z then storedblock else newblock
    end in
  {| What := what; StoredConfig := storedblock; NewConfig := newblock;
     RewindTo :=
       match rew with
       | Some r => if bool_decide (0 < r)%Z then sub64 (Uint64 r) 1 else 0
       | None => 0
       end |}.

(** [IsTIP3] returns whether [num] is either equal to the TIP3 fork block
    or greater. *)
Definition IsTIP3 (c : ChainConfig) (num : option Z) : bool :=
  match TIP3 c with
  | None => false
  | Some tip => isForked (FastNumber tip) num
  end.

(** [IsTIP5], on the snail number of the TIP5 block. *)
Definition IsTIP5 (c : ChainConfig) (num : option Z) : bool :=
  match TIP5 c with
  | None => false
  | Some tip => isForked (SnailNumber tip) num
  end.

(** [MainnetChainConfig]: the chain parameters of the main network. *)
Definition MainnetChainConfig : ChainConfig :=
  {| ChainID := Some 19330%Z;
     Minerva := Some {| MinimumDifficulty := Some 134217728%Z;
                        MinimumFruitDifficulty := Some 262144%Z;
                        DurationLimit := Some 600%Z |};
     TIP3 := Some {| FastNumber := Some 1500000%Z; SnailNumber := None |};
     TIP5 := Some {| FastNumber := None; SnailNumber := Some 12800%Z |} |}.

End params.

(** ** Definitions on the side of the specification: the memory database *)

Section memorydb_spec.
Import memorydb.

(** A write as a user of the database issues it. *)
Inductive write_op : Type :=
| OpPut (key value : slice byte)
| OpDelete (key : slice byte).

(** The write queued on a batch, and made on the database itself. *)
Definition queue_op (b : memoryBatch) (o : write_op) : memoryBatch :=
  match o with
  | OpPut key value => (batch_Put b key value).1
  | OpDelete key => (batch_Delete b key).1
  end.

Definition direct_op (d : MemoryDatabase) (o : write_op) : MemoryDatabase :=
  match o with
  | OpPut key value => (Put d key value).1
  | OpDelete key => (Delete d key).1
  end.

(** What [ValueSize] counts for a write. *)
Definition op_size (o : write_op) : Z :=
  match o with
  | OpPut _ value => Z.of_nat (len value)
  | OpDelete _ => 1%Z
  end.

(** The last queued write that concerns a key. *)
Definition last_write (key : string) (ws : list keyvalue) : option keyvalue :=
  last (filter (λ kv, string_of_key (kv_key kv) = key) ws).

(** The pairs an iterator still has to show. *)
Definition remaining (it : memoryIterator) : list (slice byte * slice byte) :=
  zip ((λ key, Some (String.list_byte_of_string key)) <$> keys it) (values it).

(** The writes queued one after the other on a batch, and made one after
    the other on the database itself. *)
Definition queue (ops : list write_op) (b : memoryBatch) : memoryBatch :=
  foldl queue_op b ops.

Definition direct (ops : list write_op) (d : MemoryDatabase) : MemoryDatabase :=
  foldl direct_op d ops.

Definition total_size (ops : list write_op) : Z :=
  foldr (λ o z, (op_size o + z)%Z) 0%Z ops.

(** The queued form of a write. *)
Definition keyvalue_of (o : write_op) : keyvalue :=
  match o with
  | OpPut key value =>
      {| kv_key := CopyBytes key; kv_value := CopyBytes value; kv_delete := false |}
  | OpDelete key =>
      {| kv_key := CopyBytes key; kv_value := None; kv_delete := true |}
  end.

End memorydb_spec.

(** ** Definitions on the side of the specification: chain configuration *)

(** The earlier of two scheduled blocks, a block that is not scheduled
    (nil) counting as later than every block. *)
Definition earliest (s1 s2 : option Z) : option Z :=
  match s1, s2 with
  | Some a, Some b => Some (Z.min a b)
  | Some a, None => Some a
  | None, _ => s2
  end.

(** ** Definitions on the side of the specification *)

Section fast_spec.
Context `{ChainTypes}.

(** The direct read that [GetCanonicalHash] is compared with: the recorded
    canonical hash, the zero hash when there is none, and no error. *)
Definition direct_canonical_read (number : N) : M (Hash * option error) :=
  λ w, Returns (ReadCanonicalHash (Database w) number, None) w.

(** The world [w] after the events [evs], the latest first. *)
Definition after (evs : list Event) (w : World) : World :=
  {| Database := Database w; events := evs ++ events w |}.

(** The body request of [GetBodyRLP]. *)
Definition body_request (hash : Hash) (number : N) : OdrRequest :=
  ReqBlock {| br_Hash := hash; br_Number := number; Rlp := None |}.


Definition untrusted_request (header : Header) : ReceiptsRequest :=
  {| rr_Hash := Header_Hash header; rr_Number := Header_Number header;
     rr_Header := Some header; Untrusted := true; Receipts := None |}.





(** A call has failed when it returned a non-nil error or panicked. *)
Definition failed {A : Type} (o : outcome (A * option error)) : Prop :=
  match o with
  | Returns (_, Some _) _ => True
  | Returns (_, None) _ => False
  | Panics _ => True
  | Diverges => False
  end.

(** The status request of [GetTransaction]. *)
Definition status_request (txHash : Hash) : TxStatusRequest :=
  {| Hashes := Some [txHash]; StatusList := None |}.

(** The section head recorded for a trusted count matches the canonical
    state: the canonical hash at the closing block of the last trusted
    section is the head the indexer has for that section, or it is not
    known yet. *)
Definition head_matches (odr : OdrBackend) (db : Store) (indexer : ChainIndexer)
    (count : N) : Prop :=
  let canon :=
    ReadCanonicalHash db
      (sub64 (mul64 count (BloomTrieSize (FastIndexerConfig odr))) 1) in
  canon = SectionHead indexer (sub64 count 1) ∨ canon = zeroHash.

(** A section misses locally when its lookup comes back with an error. *)
Definition misses (odr : OdrBackend) (db : Store) (bitIdx sectionIdx : N) : bool :=
  match local_bits odr db bitIdx sectionIdx with
  | (_, Some _) => true
  | (_, None) => false
  end.

(** The sections of a request that miss locally, each with its position in
    the request, in request order; [i] is the position of the first. *)
Fixpoint missing_from (odr : OdrBackend) (db : Store) (bitIdx : N) (i : nat)
    (l : list N) {struct l} : list (nat * N) :=
  match l with
  | [] => []
  | s :: l =>
      if misses odr db bitIdx s
      then (i, s) :: missing_from odr db bitIdx (S i) l
      else missing_from odr db bitIdx (S i) l
  end.

(** After an iteration that leaves a count above zero, the head and the
    canonical hash are those of the last section of the new count. *)
Definition reread (odr : OdrBackend) (db : Store) (indexer : ChainIndexer)
    (b : boundary) : Prop :=
  0 < bloomTrieCount b →
  sectionHead b = SectionHead indexer (sub64 (bloomTrieCount b) 1)
  ∧ canonicalHash b =
      ReadCanonicalHash db
        (sub64 (mul64 (bloomTrieCount b) (BloomTrieSize (FastIndexerConfig odr))) 1).

(** The request [GetBloomBits] makes for the sections given, under the
    boundary [b]. *)
Definition bloom_request (odr : OdrBackend) (db : Store) (bitIdx : N)
    (b : boundary) (sections : list N) : BloomRequest :=
  {| BloomTrieRoot := GetBloomTrieRoot db (sub64 (bloomTrieCount b) 1) (sectionHead b);
     BloomTrieNum := sub64 (bloomTrieCount b) 1;
     BitIdx := bitIdx;
     SectionIndexList := Some sections;
     Config := FastIndexerConfig odr;
     BloomBits := None |}.

End fast_spec.

(** ** Concrete data for runs of the model *)

(** A small instance of the chain types: a header is its hash and its
    number, a transaction is a number whose hash is its successor, a
    receipt is its transaction hash and its logs, an encoded body lists one
    byte per transaction, and the derivation links the i-th receipt to the
    i-th transaction. *)
Definition example_types : ChainTypes :=
  {| Header := Hash * N;
     Transaction := N;
     Log := N;
     Receipt := Hash * list N;
     ChainConfig := unit;
     PbftSign := unit;
     CommitteeMember := unit;
     Header_Hash := fst;
     Header_Number := snd;
     nil_Header_Hash := None;
     Transaction_Hash := N.succ;
     Receipt_TxHash := fst;
     Receipt_Logs := λ r, Some r.2;
     rlp_DecodeBody := λ data,
       (None, ((λ b, N.of_nat (Byte.to_nat b)) <$> data, [], []));
     DeriveFields := λ _ _ _ txs rs,
       if bool_decide (length txs = length rs)
       then (None, zip_with (λ (tx : N) (r : Hash * list N), (N.succ tx, r.2)) txs rs)
       else (Some (ErrOther "transaction and receipt count mismatch"), rs) |}.

(** A remote channel that answers every request: a body of the two
    transactions 1 and 2, two receipts without their transaction hashes, one
    bloom vector per section asked for, and for every transaction the
    status included with the locator (hash 9, height 5, index 0). *)
Definition example_retrieve (k : kind)
  : @request example_types k → @request example_types k * option error :=
  match k with
  | KBlock => λ r,
      ({| br_Hash := br_Hash r; br_Number := br_Number r;
          Rlp := Some [Byte.x01; Byte.x02] |}, None)
  | KReceipts => λ r,
      ({| rr_Hash := rr_Hash r; rr_Number := rr_Number r; rr_Header := rr_Header r;
          Untrusted := Untrusted r;
          Receipts := Some [(0, [1]); (0, [2])] |}, None)
  | KBloom => λ r,
      ({| BloomTrieRoot := BloomTrieRoot r; BloomTrieNum := BloomTrieNum r;
          BitIdx := BitIdx r; SectionIndexList := SectionIndexList r;
          Config := Config r;
          BloomBits := Some ((λ _, Some [Byte.xff]) <$> elems (SectionIndexList r)) |},
       None)
  | KTxStatus => λ r,
      ({| Hashes := Hashes r;
          StatusList :=
            Some ((λ _, {| Status := TxStatusIncluded;
                           Lookup := Some {| BlockHash := 9; BlockIndex := 5;
                                             Index := 0 |} |})
                    <$> elems (Hashes r)) |}, None)
  end.

(** An indexer with twelve sections of four blocks; the head of section
    [i] has the hash [489 + i]. *)
Definition example_indexer : ChainIndexer :=
  {| Sections := (12, 47, 500); SectionHead := λ i, 489 + i |}.

Definition example_odr : @OdrBackend example_types :=
  {| BloomTrieIndexer := Some example_indexer;
     FastIndexerConfig := {| BloomSize := 4; BloomTrieSize := 4 |};
     FastRetrieve := example_retrieve |}.

(** A database with the canonical hashes and the stored entries given. *)
Definition example_store (canon : list (N * Hash))
    (hdrs : list (Hash * N * (Hash * N))) (bds : list (Hash * N * list byte))
    (bits : list (N * N * Hash * list byte)) : @Store example_types :=
  {| canonical := list_to_map canon;
     headers := list_to_map hdrs;
     bodies := list_to_map bds;
     receipts := ∅;
     chainConfigs := ∅;
     bloomBits := list_to_map bits;
     bloomTrieRoots := ∅ |}.

Definition example_world (db : @Store example_types) : @World example_types :=
  {| Database := db; events := [] |}.

(** Height 5 has the canonical hash 7 and the header is stored. *)
Definition store_7 : @Store example_types :=
  example_store [(5, 7)] [((7, 5), (7, 5))] [] [].

(** Height 5 has the canonical hash 7, but no header is stored. *)
Definition store_broken : @Store example_types := example_store [(5, 7)] [] [] [].

(** Nothing is stored. *)
Definition store_empty : @Store example_types := example_store [] [] [] [].

(** Height 5 has the canonical hash 9, the header is stored, and the body
    stored for it has no transaction. *)
Definition store_9_no_tx : @Store example_types :=
  example_store [(5, 9)] [((9, 5), (9, 5))] [((9, 5), [])] [].

(** The same with a stored body of the transactions 1 and 2, whose hashes
    are 2 and 3. *)
Definition store_9 : @Store example_types :=
  example_store [(5, 9)] [((9, 5), (9, 5))] [((9, 5), [Byte.x01; Byte.x02])] [].

(** After a reorganisation: the canonical hash at the head of the twelfth
    section, block 47, is no longer the hash 500 the indexer recorded,
    while block 43 still has the head of the eleventh section. *)
Definition store_reorg : @Store example_types :=
  example_store [(47, 999); (43, 499)] [] [] [].

(** The vector of bit 3 is stored for section 10, under the zero head, and
    no canonical hash is known. *)
Definition store_bloom : @Store example_types :=
  example_store [] [] [] [((3, 10, 0), [Byte.x0a])].

(** A remote channel that fails every request, and one that answers
    every request with success and leaves the request as it came. *)
Definition example_odr_failing : @OdrBackend example_types :=
  {| BloomTrieIndexer := Some example_indexer;
     FastIndexerConfig := {| BloomSize := 4; BloomTrieSize := 4 |};
     FastRetrieve := λ k r, (r, Some (ErrOther "request timed out")) |}.

Definition example_odr_silent : @OdrBackend example_types :=
  {| BloomTrieIndexer := Some example_indexer;
     FastIndexerConfig := {| BloomSize := 4; BloomTrieSize := 4 |};
     FastRetrieve := λ k r, (r, None) |}.

(** A backend without a bloom trie indexer. *)
Definition example_odr_no_indexer : @OdrBackend example_types :=
  {| BloomTrieIndexer := None;
     FastIndexerConfig := {| BloomSize := 4; BloomTrieSize := 4 |};
     FastRetrieve := example_retrieve |}.

(** The receipts of block (9, 5) are stored with their transaction
    hashes. *)
Definition store_9_receipts : @Store example_types :=
  {| canonical := canonical store_9; headers := headers store_9;
     bodies := bodies store_9;
     receipts := {[ (9, 5) := [(2, [1]); (3, [2])] ]};
     chainConfigs := ∅; bloomBits := ∅; bloomTrieRoots := ∅ |}.


(** The same chain types, except that [Hash()] of the nil header pointer
    does not panic and gives the hash 9, with a remote channel that answers
    a body request with the single transaction 0, whose hash is 1, and a
    status request with the status included at (hash 9, height 5, index 0). *)
Definition example_types_nil : ChainTypes :=
  {| Header := Hash * N;
     Transaction := N;
     Log := N;
     Receipt := Hash * list N;
     ChainConfig := unit;
     PbftSign := unit;
     CommitteeMember := unit;
     Header_Hash := fst;
     Header_Number := snd;
     nil_Header_Hash := Some 9;
     Transaction_Hash := N.succ;
     Receipt_TxHash := fst;
     Receipt_Logs := λ r, Some r.2;
     rlp_DecodeBody := λ data,
       (None, ((λ b, N.of_nat (Byte.to_nat b)) <$> data, [], []));
     DeriveFields := λ _ _ _ _ rs, (None, rs) |}.

Definition example_retrieve_nil (k : kind)
  : @request example_types_nil k → @request example_types_nil k * option error :=
  match k with
  | KBlock => λ r,
      ({| br_Hash := br_Hash r; br_Number := br_Number r;
          Rlp := Some [Byte.x00] |}, None)
  | KReceipts => λ r, (r, None)
  | KBloom => λ r, (r, None)
  | KTxStatus => λ r,
      ({| Hashes := Hashes r;
          StatusList :=
            Some [{| Status := TxStatusIncluded;
                     Lookup := Some {| BlockHash := 9; BlockIndex := 5;
                                       Index := 0 |} |}] |}, None)
  end.

Definition example_odr_nil : @OdrBackend example_types_nil :=
  {| BloomTrieIndexer := None;
     FastIndexerConfig := {| BloomSize := 4; BloomTrieSize := 4 |};
     FastRetrieve := example_retrieve_nil |}.

Definition world_nil : @World example_types_nil :=
  {| Database := {| canonical := ∅; headers := ∅; bodies := ∅; receipts := ∅;
                    chainConfigs := ∅; bloomBits := ∅; bloomTrieRoots := ∅ |};
     events := [] |}.

(** * Properties *)

(** ** The memory database *)

Section memorydb_facts.
Import memorydb.

Lemma CopyBytes_same (b : slice byte) : CopyBytes b = b.
Proof. by destruct b. Qed.

Lemma Get_entry (d : MemoryDatabase) (key : slice byte) :
  Get d key =
    match entry d key with
    | Some e => (CopyBytes e, None)
    | None =>
        (None, Some (match db d with
                    | Some _ => errMemorydbNotFound
                    | None => errMemorydbClosed
                    end))
    end.
Proof.
  unfold Get, entry. destruct (db d) as [m|]; simpl; [|done].
  by destruct (m !! string_of_key key).
Qed.

Lemma entry_Put_same (d : MemoryDatabase) (key value : slice byte) :
  is_Some (db d) → entry (Put d key value).1 key = Some value.
Proof.
  intros [m Hm]. unfold entry, Put. rewrite Hm. simpl.
  by rewrite lookup_insert_eq, CopyBytes_same.
Qed.

(** C10, as stated, fails: after [Put(key, nil)] on a fresh database, [Get]
    of that key returns the nil slice together with the nil error. *)
Lemma Get_nil_value_nil_error :
  Get (Put New (Some [Byte.x6b]) None).1 (Some [Byte.x6b]) = (None, None).
Proof. vm_compute. reflexivity. Qed.

(** C10, amended: [Get] returns a nil error exactly when the database is
    open and the key has an entry, and the value is then the entry; on an
    open database without the key it fails with the not-found error; after
    [Close] it fails with the closed-database error; a nil value comes with
    a nil error exactly when the entry itself is the nil slice. *)
Theorem Get_characterised (d : MemoryDatabase) (key : slice byte) :
  (∀ v, Get d key = (v, None) ↔ entry d key = Some v)
  ∧ (is_Some (db d) → entry d key = None →
       Get d key = (None, Some errMemorydbNotFound))
  ∧ Get (Close d).1 key = (None, Some errMemorydbClosed)
  ∧ (db d = None → Get d key = (None, Some errMemorydbClosed))
  ∧ (Get d key = (None, None) ↔ entry d key = Some None).
Proof.
  rewrite Get_entry. split_and!.
  - intros v. destruct (entry d key) as [e|]; rewrite ?CopyBytes_same;
      split; intros; simplify_eq; done.
  - intros [m Hm] ->. by rewrite Hm.
  - done.
  - intros Hd. unfold entry. by rewrite Hd.
  - destruct (entry d key) as [e|]; rewrite ?CopyBytes_same;
      split; intros; simplify_eq; done.
Qed.

Lemma Get_characterised_witness :
  let d := (Put New (Some [Byte.x6b]) (Some [Byte.x01])).1 in
  Get d (Some [Byte.x6b]) = (Some [Byte.x01], None)
  ∧ Get d (Some [Byte.x6c]) = (None, Some errMemorydbNotFound)
  ∧ Get (Close d).1 (Some [Byte.x6b]) = (None, Some errMemorydbClosed).
Proof.
  intros d.
  destruct (Get_characterised d (Some [Byte.x6b])) as (Hv & _ & Hc & _).
  destruct (Get_characterised d (Some [Byte.x6c])) as (_ & Hn & _).
  split_and!.
  - apply Hv. vm_compute. reflexivity.
  - apply Hn; [by eexists | vm_compute; reflexivity].
  - exact Hc.
Defined.

End memorydb_facts.

(** ** Running the retrieval functions *)

Ltac run :=
  repeat (progress
    (unfold mbind, M_bind, mret, M_ret, getDatabase, putDatabase, emit,
       retrieve, panic, diverge in *;
     cbn beta iota zeta match delta [Database events fst snd] in *)).

(** ** Headers and canonical hashes *)

Section header_facts.
Context `{ChainTypes}.
Variable odr : OdrBackend.

Lemma GetHeaderByNumber_unrecorded (number : N) (w : World) :
  ReadCanonicalHash (Database w) number = zeroHash →
  GetHeaderByNumber number w = Returns (None, None) w.
Proof.
  intros Hz. unfold GetHeaderByNumber. run. rewrite Hz.
  by rewrite bool_decide_false by (intros Hne; by apply Hne).
Qed.

Lemma GetHeaderByNumber_world (number : N) (w w' : World)
    (res : option Header * option error) :
  GetHeaderByNumber number w = Returns res w' → w' = w.
Proof.
  unfold GetHeaderByNumber. run. case_bool_decide.
  - destruct (ReadHeader _ _ _); run; [|done]. by intros [= _ <-].
  - by intros [= _ <-].
Qed.

Lemma GetHeaderByNumber_Some (number : N) (w w' : World) (h : Header)
    (e : option error) :
  GetHeaderByNumber number w = Returns (Some h, e) w' →
  ReadCanonicalHash (Database w) number ≠ zeroHash.
Proof.
  unfold GetHeaderByNumber. run. case_bool_decide; [done|]. by intros [= ].
Qed.

Lemma GetHeaderByNumber_stored (number : N) (w : World) (header : Header) :
  ReadCanonicalHash (Database w) number ≠ zeroHash →
  ReadHeader (Database w) (ReadCanonicalHash (Database w) number) number = Some header →
  GetHeaderByNumber number w = Returns (Some header, None) w.
Proof.
  intros Hne Hhd. unfold GetHeaderByNumber. run.
  rewrite bool_decide_true by done. by rewrite Hhd.
Qed.

(** C7: where a canonical hash is recorded, [GetHeaderByNumber] returns the
    header stored under that hash and the height, with a nil error and
    without touching the world; when no header is stored under them the
    call panics. *)
Theorem GetHeaderByNumber_recorded (number : N) (w : World) :
  ReadCanonicalHash (Database w) number ≠ zeroHash →
  match ReadHeader (Database w) (ReadCanonicalHash (Database w) number) number with
  | Some header => GetHeaderByNumber number w = Returns (Some header, None) w
  | None =>
      GetHeaderByNumber number w =
        Panics "Canonical hash present but header not found"
  end.
Proof.
  intros Hne. unfold GetHeaderByNumber. run.
  rewrite bool_decide_true by done.
  by destruct (ReadHeader _ _ _).
Qed.

(** C9: [GetCanonicalHash] is the direct read of the recorded canonical
    hash, for every world and height; in its fallback branch
    [GetHeaderByNumber] finds no header, since it returns one only where a
    canonical hash is recorded. *)
Theorem GetCanonicalHash_direct_read (number : N) (w : World) :
  GetCanonicalHash number w = direct_canonical_read number w
  ∧ (ReadCanonicalHash (Database w) number = zeroHash →
       GetHeaderByNumber number w = Returns (None, None) w)
  ∧ (∀ h e w', GetHeaderByNumber number w = Returns (Some h, e) w' →
       ReadCanonicalHash (Database w) number ≠ zeroHash).
Proof.
  split_and!.
  - unfold GetCanonicalHash, direct_canonical_read. run.
    case_bool_decide as Hz; [done|].
    assert (ReadCanonicalHash (Database w) number = zeroHash) as Hz'.
    { destruct (decide (ReadCanonicalHash (Database w) number = zeroHash)); done. }
    rewrite (GetHeaderByNumber_unrecorded _ _ Hz'). run. by rewrite Hz'.
  - apply GetHeaderByNumber_unrecorded.
  - intros h e w'. apply GetHeaderByNumber_Some.
Qed.

End header_facts.

(** ** Bodies and blocks *)

Section block_facts.
Context `{ChainTypes}.
Variable odr : OdrBackend.

Lemma after_nil (w : World) : after [] w = w.
Proof. by destruct w. Qed.

Lemma Database_after (evs : list Event) (w : World) :
  Database (after evs w) = Database w.
Proof. done. Qed.

Lemma events_after (evs : list Event) (w : World) :
  events (after evs w) = evs ++ events w.
Proof. done. Qed.


(** [GetBodyRLP] returns; what it returns depends on the database only, it
    leaves the database alone and sends at most the body request. *)
Lemma GetBodyRLP_summary (hash : Hash) (number : N) (db : Store) :
  ∃ res evs,
    (evs = [] ∨ evs = [EvRetrieve (body_request hash number)])
    ∧ (is_Some (ReadBodyRLP db hash number) → evs = [])
    ∧ ∀ w, Database w = db → GetBodyRLP odr hash number w = Returns res (after evs w).
Proof.
  destruct (ReadBodyRLP db hash number) as [data|] eqn:Hread.
  - exists (Some data, None), []. split_and!; [by left|done|].
    intros w <-. unfold GetBodyRLP. run. rewrite Hread. run. by rewrite after_nil.
  - destruct (FastRetrieve odr KBlock
                {| br_Hash := hash; br_Number := number; Rlp := None |})
      as [r err] eqn:Hret.
    exists (match err with Some e => (None, Some e) | None => (Rlp r, None) end),
      [EvRetrieve (body_request hash number)].
    split_and!; [by right|by intros [? ?]|].
    intros w <-. unfold GetBodyRLP. run. rewrite Hread. run.
    rewrite Hret. by destruct err.
Qed.

(** [GetBody] likewise; without an error it returns a body. *)
Lemma GetBody_summary (hash : Hash) (number : N) (db : Store) :
  ∃ res evs,
    (evs = [] ∨ evs = [EvRetrieve (body_request hash number)])
    ∧ (res.2 = None → is_Some res.1)
    ∧ ∀ w, Database w = db → GetBody odr hash number w = Returns res (after evs w).
Proof.
  destruct (GetBodyRLP_summary hash number db) as ([data err] & evs & Hevs & _ & Hrun).
  destruct err as [e|].
  - exists (None, Some e), evs. split_and!; [done|done|].
    intros w Hw. unfold GetBody. run. by rewrite (Hrun w Hw).
  - destruct (rlp_DecodeBody (elems data)) as [[e|] [[txs signs] infos]] eqn:Hdec.
    + exists (None, Some e), evs. split_and!; [done|done|].
      intros w Hw. unfold GetBody. run. rewrite (Hrun w Hw), Hdec. by run.
    + exists (Some {| Transactions := txs; Signs := signs; Infos := infos |}, None), evs.
      split_and!; [done|by eexists|].
      intros w Hw. unfold GetBody. run. rewrite (Hrun w Hw), Hdec. by run.
Qed.

(** [GetBlock] likewise: a missing header is [ErrNoHeader] without any
    request, and without an error the block is returned. *)
Lemma GetBlock_summary (hash : Hash) (number : N) (db : Store) :
  ∃ res evs,
    (evs = [] ∨ evs = [EvRetrieve (body_request hash number)])
    ∧ (res.2 = None → is_Some res.1)
    ∧ (ReadHeader db hash number = None → res = (None, Some ErrNoHeader) ∧ evs = [])
    ∧ ∀ w, Database w = db → GetBlock odr hash number w = Returns res (after evs w).
Proof.
  destruct (ReadHeader db hash number) as [header|] eqn:Hhd.
  - destruct (GetBody_summary hash number db) as ([body err] & evs & Hevs & Hbody & Hrun).
    destruct err as [e|].
    + exists (None, Some e), evs. split_and!; [done..|].
      intros w Hw. unfold GetBlock. run. rewrite Hw, Hhd. run.
      rewrite (Hrun w Hw). by run.
    + destruct (Hbody eq_refl) as [b Hb]. simpl in Hb. subst body.
      exists (Some (WithBody (NewBlockWithHeader header)
                      (Transactions b) (Signs b) (Infos b)), None), evs.
      split_and!; [done|by eexists|done|].
      intros w Hw. unfold GetBlock. run. rewrite Hw, Hhd. run.
      rewrite (Hrun w Hw). by run.
  - exists (None, Some ErrNoHeader), []. split_and!; [by left|done|done|].
    intros w Hw. unfold GetBlock. run. rewrite Hw, Hhd. run. by rewrite after_nil.
Qed.

(** C8: header resolution sends nothing.  [GetHeaderByNumber] returns in the
    world it was called in, with a nil header and a nil error when no
    canonical hash is recorded; [GetBlock] answers a locally missing header
    with [ErrNoHeader] in the world it was called in; and whatever
    [GetBlock] returns, the database is as before and the only request it
    may have sent is the one for the body of that block. *)
Theorem header_resolution_is_local (hash : Hash) (number : N) (w : World) :
  (∀ res w', GetHeaderByNumber number w = Returns res w' → w' = w)
  ∧ (ReadCanonicalHash (Database w) number = zeroHash →
       GetHeaderByNumber number w = Returns (None, None) w)
  ∧ (ReadHeader (Database w) hash number = None →
       GetBlock odr hash number w = Returns (None, Some ErrNoHeader) w)
  ∧ (∃ res w', GetBlock odr hash number w = Returns res w'
       ∧ Database w' = Database w
       ∧ (events w' = events w
          ∨ events w' = EvRetrieve (body_request hash number) :: events w)).
Proof.
  split_and!.
  - intros res w'. apply GetHeaderByNumber_world.
  - apply GetHeaderByNumber_unrecorded.
  - intros Hhd.
    destruct (GetBlock_summary hash number (Database w))
      as (res & evs & _ & _ & Hmiss & Hrun).
    destruct (Hmiss Hhd) as [-> ->]. rewrite (Hrun w eq_refl). by rewrite after_nil.
  - destruct (GetBlock_summary hash number (Database w))
      as (res & evs & Hevs & _ & _ & Hrun).
    exists res, (after evs w). split_and!; [by apply Hrun|done|].
    destruct Hevs as [-> | ->]; [by left|by right].
Qed.

End block_facts.

(** ** Receipts and logs *)

Section receipt_facts.
Context `{ChainTypes}.
Variable odr : OdrBackend.


(** C6: [GetUntrustedBlockLogs] returns, and the database it returns in is
    the one it was called with, so the receipts stored for the block are as
    before, a miss remaining a miss.  No derivation and no write takes place:
    the only event is the untrusted request, sent on a local miss.  The logs
    are those of the stored receipts, or of the receipts of the response as
    they came. *)
Theorem GetUntrustedBlockLogs_frame (header : Header) (w : World) :
  ∃ res w',
    GetUntrustedBlockLogs odr header w = Returns res w'
    ∧ Database w' = Database w
    ∧ ReadRawReceipts (Database w') (Header_Hash header) (Header_Number header)
      = ReadRawReceipts (Database w) (Header_Hash header) (Header_Number header)
    ∧ match ReadRawReceipts (Database w) (Header_Hash header) (Header_Number header) with
      | Some rs => events w' = events w ∧ res = (logs_of (Some rs), None)
      | None =>
          events w' = EvRetrieve (ReqReceipts (untrusted_request header)) :: events w
          ∧ res = match FastRetrieve odr KReceipts (untrusted_request header) with
                  | (_, Some e) => (None, Some e)
                  | (r, None) => (logs_of (Receipts r), None)
                  end
      end.
Proof.
  unfold GetUntrustedBlockLogs. run.
  destruct (ReadRawReceipts _ _ _) as [rs|] eqn:Hread; run.
  - by eexists _, _.
  - fold (untrusted_request header).
    destruct (FastRetrieve odr KReceipts (untrusted_request header)) as [r [e|]];
      by eexists _, _.
Qed.




End receipt_facts.

(** ** The transaction locator *)

Section transaction_facts.
Context `{ChainTypes}.
Variable odr : OdrBackend.

(** The run of [GetTransaction] up to the validation of the locator, for a
    response that reports the transaction as included at [pos] while the
    canonical header at that height is [header]. *)
Lemma GetTransaction_located (txHash : Hash) (w : World) (r : TxStatusRequest)
    (st : TxStatus) (sts : list TxStatus) (pos : TxLookupEntry) (header : Header) :
  FastRetrieve odr KTxStatus (status_request txHash) = (r, None) →
  StatusList r = Some (st :: sts) →
  Status st = TxStatusIncluded →
  Lookup st = Some pos →
  ReadCanonicalHash (Database w) (BlockIndex pos) ≠ zeroHash →
  ReadHeader (Database w) (ReadCanonicalHash (Database w) (BlockIndex pos))
    (BlockIndex pos) = Some header →
  GetTransaction odr txHash w =
    let w1 := after [EvRetrieve (ReqTxStatus (status_request txHash))] w in
    if bool_decide (Header_Hash header ≠ BlockHash pos)
    then Returns (no_transaction None) w1
    else
      match GetBody odr (BlockHash pos) (BlockIndex pos) w1 with
      | Returns (body, err) w2 =>
          match err, body with
          | Some e, _ => Returns (no_transaction (Some e)) w2
          | None, None => Panics "invalid memory address or nil pointer dereference"
          | None, Some body =>
              if bool_decide (N.of_nat (length (Transactions body)) ≤ Index pos)
              then Returns (no_transaction None) w2
              else
                match Transactions body !! N.to_nat (Index pos) with
                | None => Panics "index out of range"
                | Some tx =>
                    if bool_decide (Transaction_Hash tx ≠ txHash)
                    then Returns (no_transaction None) w2
                    else Returns (Some tx, BlockHash pos, BlockIndex pos,
                                  Index pos, None) w2
                end
          end
      | Panics msg => Panics msg
      | Diverges => Diverges
      end.
Proof.
  intros Hret Hsts Hincl Hpos Hcanon Hhd.
  pose proof (GetHeaderByNumber_stored (BlockIndex pos)
                (after [EvRetrieve (ReqTxStatus (status_request txHash))] w) header)
    as Hget.
  rewrite Database_after in Hget. specialize (Hget Hcanon Hhd).
  unfold GetTransaction. run. fold (status_request txHash). rewrite Hret. run.
  rewrite Hsts. cbn [elems]. rewrite Hincl.
  rewrite bool_decide_false by (intros Hne; by apply Hne). rewrite Hpos.
  unfold after in Hget. simpl in Hget. unfold after. simpl. rewrite Hget.
  cbn [pointer_Hash]. case_bool_decide; [done|].
  destruct (GetBody odr (BlockHash pos) (BlockIndex pos) _) as [[body err] w2| |];
    [|done|done].
  destruct err as [e|]; [done|]. destruct body as [body|]; [|done].
  case_bool_decide; [done|].
  destruct (Transactions body !! N.to_nat (Index pos)) as [tx|]; [|done].
  by case_bool_decide.
Qed.

(** C4, amended: when the response reports the transaction as included and
    the canonical header at the height of the locator has another hash than
    the locator claims, [GetTransaction] returns no transaction, and its
    error is nil; when the header agrees and the body is resolved, but the
    index of the locator is out of bounds or the transaction there has
    another hash than asked for, it returns no transaction and a nil error
    either. *)
Theorem GetTransaction_rejects_locator (txHash : Hash) (w : World)
    (r : TxStatusRequest) (st : TxStatus) (sts : list TxStatus)
    (pos : TxLookupEntry) (header : Header) :
  FastRetrieve odr KTxStatus (status_request txHash) = (r, None) →
  StatusList r = Some (st :: sts) →
  Status st = TxStatusIncluded →
  Lookup st = Some pos →
  ReadCanonicalHash (Database w) (BlockIndex pos) ≠ zeroHash →
  ReadHeader (Database w) (ReadCanonicalHash (Database w) (BlockIndex pos))
    (BlockIndex pos) = Some header →
  let w1 := after [EvRetrieve (ReqTxStatus (status_request txHash))] w in
  (Header_Hash header ≠ BlockHash pos →
     GetTransaction odr txHash w = Returns (no_transaction None) w1)
  ∧ (Header_Hash header = BlockHash pos →
     ∀ body w2,
       GetBody odr (BlockHash pos) (BlockIndex pos) w1 = Returns (Some body, None) w2 →
       (N.of_nat (length (Transactions body)) ≤ Index pos
        ∨ ∃ tx, Transactions body !! N.to_nat (Index pos) = Some tx
                ∧ Transaction_Hash tx ≠ txHash) →
       GetTransaction odr txHash w = Returns (no_transaction None) w2).
Proof.
  intros Hret Hsts Hincl Hpos Hcanon Hhd w1.
  rewrite (GetTransaction_located txHash w r st sts pos header) by done.
  cbn zeta. fold w1. split.
  - intros Hne. by rewrite bool_decide_true.
  - intros Heq body w2 Hbody Hbad.
    rewrite bool_decide_false by (intros Hne; by apply Hne).
    rewrite Hbody. case_bool_decide as Hlen; [done|].
    destruct Hbad as [Hoob | (tx & Htx & Hne)]; [done|].
    rewrite Htx. by rewrite bool_decide_true.
Qed.

(** Whenever [GetTransaction] returns a transaction, its hash is the one
    asked for and the error is nil. *)
Lemma GetTransaction_sound (txHash : Hash) (w w' : World) (tx : Transaction)
    (bh : Hash) (bn idx : N) (err : option error) :
  GetTransaction odr txHash w = Returns (Some tx, bh, bn, idx, err) w' →
  Transaction_Hash tx = txHash ∧ err = None.
Proof.
  unfold GetTransaction. run.
  destruct (FastRetrieve odr KTxStatus _) as [r [e|]]; [by intros [= ]|].
  destruct (elems (StatusList r)) as [|st sts]; [by intros [= ]|].
  case_bool_decide; [by intros [= ]|].
  destruct (Lookup st) as [pos|]; [|by intros [= ]].
  destruct (GetHeaderByNumber _ _) as [[header herr] w1| |]; [|done|done].
  destruct herr as [e|]; [by intros [= ]|].
  destruct (pointer_Hash header) as [hash|]; [|by intros [= ]].
  case_bool_decide; [by intros [= ]|].
  destruct (GetBody odr _ _ _) as [[body berr] w2| |]; [|done|done].
  destruct berr as [e|]; [by intros [= ]|]. destruct body as [body|]; [|done].
  case_bool_decide; [by intros [= ]|].
  destruct (Transactions body !! _) as [tx'|]; [|done].
  case_bool_decide as Hh; [by intros [= ]|].
  intros [= -> _ _ _ <- _]. split; [|done].
  by destruct (decide (Transaction_Hash tx = txHash)).
Qed.

End transaction_facts.

(** ** The trusted boundary of the bloom trie *)

Section boundary_facts.
Context `{ChainTypes}.
Variable odr : OdrBackend.
Variable db : Store.
Variable indexer : ChainIndexer.

Lemma sub64_one_lt (c : N) : 0 < c → sub64 c 1 < c.
Proof.
  intros Hc. unfold sub64, two64.
  assert (2 ^ 64 = 18446744073709551616) as Hp by (vm_compute; reflexivity).
  rewrite Hp. rewrite (N.mod_small 1) by lia.
  destruct (decide (c < 18446744073709551616)) as [Hlt|Hge].
  - replace (c + 18446744073709551616 - 1)
      with ((c - 1) + 1 * 18446744073709551616) by lia.
    rewrite N.Div0.mod_add. rewrite N.mod_small by lia. lia.
  - pose proof (N.mod_upper_bound (c + 18446744073709551616 - 1)
                  18446744073709551616). lia.
Qed.

Lemma stale_inv (b : boundary) :
  stale b = true →
  0 < bloomTrieCount b ∧ canonicalHash b ≠ sectionHead b ∧ canonicalHash b ≠ zeroHash.
Proof.
  unfold stale. rewrite !andb_true_iff, !bool_decide_eq_true. tauto.
Qed.

Lemma stale_false_inv (b : boundary) :
  stale b = false →
  bloomTrieCount b = 0 ∨ canonicalHash b = sectionHead b ∨ canonicalHash b = zeroHash.
Proof.
  unfold stale. rewrite !andb_false_iff, !bool_decide_eq_false. intros [[Hc|Hh]|Hz].
  - left. lia.
  - right. left. by destruct (decide (canonicalHash b = sectionHead b)).
  - right. right. by destruct (decide (canonicalHash b = zeroHash)).
Qed.

(** One iteration takes the count strictly down. *)
Lemma rollback_decreases (b : boundary) :
  stale b = true → bloomTrieCount (rollback odr db indexer b) < bloomTrieCount b.
Proof.
  intros Hst. apply stale_inv in Hst as (Hc & _).
  unfold rollback. case_bool_decide; simpl; by apply sub64_one_lt.
Qed.

Lemma rollback_reread (b : boundary) :
  reread odr db indexer (rollback odr db indexer b).
Proof.
  unfold reread, rollback. case_bool_decide as Hc; simpl; [done|]. intros. lia.
Qed.

(** The loop ends within as many iterations as the count it starts from,
    with the condition false; if it ran at all, the count went down and the
    head and canonical hash were read again for the final count. *)
Lemma reconcile_loop_ends (fuel : nat) (b : boundary) :
  (N.to_nat (bloomTrieCount b) ≤ fuel)%nat →
  ∃ b', reconcile_loop odr fuel db indexer b = Some b'
    ∧ stale b' = false
    ∧ (stale b = false → b' = b)
    ∧ (stale b = true →
         bloomTrieCount b' < bloomTrieCount b ∧ reread odr db indexer b').
Proof.
  revert b. induction fuel as [|fuel IH]; intros b Hfuel.
  - assert (stale b = false) as Hst.
    { destruct (stale b) eqn:Hst; [|done].
      apply stale_inv in Hst as (Hc & _). lia. }
    exists b. simpl. rewrite Hst. split_and!; [done|done|done|by intros [= ]].
  - simpl. destruct (stale b) eqn:Hst.
    + pose proof (rollback_decreases b Hst) as Hdec.
      destruct (IH (rollback odr db indexer b)) as (b' & Hrun & Hend & Hsame & Hless);
        [lia|].
      exists b'. split_and!; [done|done|by intros [= ]|].
      intros _. destruct (stale (rollback odr db indexer b)) eqn:Hst'.
      * destruct (Hless eq_refl) as [Hlt Hre]. split; [lia|done].
      * rewrite (Hsame eq_refl). split; [done|apply rollback_reread].
    + exists b. split_and!; [done|done|done|by intros [= ]].
Qed.

(** C1: when the head recorded for the trusted count is not the canonical
    hash at its height and that hash is known, the loop ends, within as
    many iterations as the recorded count, on a smaller count that is zero
    or whose section head matches the canonical state.  Every iteration
    takes the count strictly down, and a boundary whose canonical hash is
    zero is left as it is. *)
Theorem reconciliation_terminates :
  stale (recorded db indexer) = true →
  (∃ b',
      reconcile_loop odr (N.to_nat (bloomTrieCount (recorded db indexer)))
        db indexer (recorded db indexer) = Some b'
      ∧ bloomTrieCount b' < bloomTrieCount (recorded db indexer)
      ∧ (bloomTrieCount b' = 0 ∨ head_matches odr db indexer (bloomTrieCount b')))
  ∧ (∀ b, stale b = true →
       bloomTrieCount (rollback odr db indexer b) < bloomTrieCount b)
  ∧ (∀ b fuel, canonicalHash b = zeroHash →
       reconcile_loop odr fuel db indexer b = Some b).
Proof.
  intros Hst. split_and!.
  - destruct (reconcile_loop_ends
                (N.to_nat (bloomTrieCount (recorded db indexer))) (recorded db indexer))
      as (b' & Hrun & Hend & _ & Hless); [done|].
    destruct (Hless Hst) as [Hlt Hre].
    exists b'. split_and!; [done|done|].
    destruct (decide (bloomTrieCount b' = 0)) as [Hz|Hnz]; [by left|right].
    destruct Hre as [Hhead Hcanon]; [lia|].
    unfold head_matches. cbn zeta. rewrite <- Hcanon, <- Hhead.
    apply stale_false_inv in Hend as [Hz|Hm]; [done|done].
  - apply rollback_decreases.
  - intros b fuel Hz.
    assert (stale b = false) as Hns.
    { unfold stale. rewrite Hz. rewrite (bool_decide_false (zeroHash ≠ zeroHash)) by auto.
      by rewrite andb_false_r. }
    destruct fuel; simpl; by rewrite Hns.
Qed.

End boundary_facts.

(** ** Bloom bits *)

Section bloom_facts.
Context `{ChainTypes}.
Variable odr : OdrBackend.

(** The reconciliation always comes to an end. *)
Lemma reconcile_total (db : Store) : is_Some (reconcile odr db).
Proof.
  unfold reconcile. destruct (BloomTrieIndexer odr) as [indexer|]; [|by eexists].
  destruct (reconcile_loop_ends odr db indexer
              (N.to_nat (bloomTrieCount (recorded db indexer))) (recorded db indexer))
    as (b' & Hrun & _); [done|]. by eexists.
Qed.

Lemma misses_true (db : Store) (bitIdx s : N) :
  misses odr db bitIdx s = true →
  ∃ b e, local_bits odr db bitIdx s = (b, Some e).
Proof.
  unfold misses. destruct (local_bits odr db bitIdx s) as [b [e|]]; [|done].
  by eexists _, _.
Qed.

Lemma misses_false (db : Store) (bitIdx s : N) :
  misses odr db bitIdx s = false →
  ∃ b, local_bits odr db bitIdx s = (b, None).
Proof.
  unfold misses. destruct (local_bits odr db bitIdx s) as [b [e|]]; [done|].
  by eexists.
Qed.

(** A miss at or beyond the trusted count ends the loop over the sections
    with [ErrNoTrustedBloomTrie], wherever it stands in the request. *)
Lemma scan_untrusted (db : Store) (bitIdx count : N) (l : list N) :
  ∀ (i j : nat) (st : scan_state) (s : N),
    l !! j = Some s → misses odr db bitIdx s = true → count ≤ s →
    scan odr db bitIdx count i l st = inr ErrNoTrustedBloomTrie.
Proof.
  induction l as [|s0 l IH]; intros i j st s Hj Hmiss Hle; [done|].
  simpl. destruct j as [|j].
  - injection Hj as ->. apply misses_true in Hmiss as (b & e & ->).
    by rewrite bool_decide_true.
  - simpl in Hj. destruct (local_bits odr db bitIdx s0) as [b [e|]].
    + case_bool_decide; [done|]. by eapply IH.
    + by eapply IH.
Qed.

(** C3: a local miss of a section at or beyond the reconciled trusted count
    makes [GetBloomBits] return [ErrNoTrustedBloomTrie] in the world it was
    called in, so without any request; the error is none of the other
    errors of the package and none that a collaborator makes. *)
Theorem GetBloomBits_untrusted_miss (bitIdx : N) (sectionIdxList : slice N)
    (w : World) (b : boundary) (j : nat) (sectionIdx : N) :
  reconcile odr (Database w) = Some b →
  elems sectionIdxList !! j = Some sectionIdx →
  misses odr (Database w) bitIdx sectionIdx = true →
  bloomTrieCount b ≤ sectionIdx →
  GetBloomBits odr bitIdx sectionIdxList w = Returns (None, Some ErrNoTrustedBloomTrie) w
  ∧ ErrNoTrustedBloomTrie ≠ ErrNoHeader
  ∧ ∀ msg, ErrNoTrustedBloomTrie ≠ ErrOther msg.
Proof.
  intros Hrec Hj Hmiss Hle. split_and!; [|done|done].
  unfold GetBloomBits. run. rewrite Hrec.
  by rewrite (scan_untrusted _ _ _ _ 0%nat j _ sectionIdx Hj Hmiss Hle).
Qed.

(** The positions of the missing sections lie in the request and point to
    sections that miss. *)
Lemma missing_from_elem (db : Store) (bitIdx : N) (l : list N) :
  ∀ (i j : nat) (s : N),
    (j, s) ∈ missing_from odr db bitIdx i l →
    (i ≤ j)%nat ∧ l !! (j - i)%nat = Some s ∧ misses odr db bitIdx s = true.
Proof.
  induction l as [|s0 l IH]; intros i j s Hin; simpl in Hin.
  - by apply elem_of_nil in Hin.
  - destruct (misses odr db bitIdx s0) eqn:Hm.
    + apply elem_of_cons in Hin as [[= -> ->] | Hin].
      * rewrite Nat.sub_diag. by split_and!.
      * apply IH in Hin as (Hle & Hl & Hs). split_and!; [lia| |done].
        by replace (j - i)%nat with (S (j - S i)) by lia.
    + apply IH in Hin as (Hle & Hl & Hs). split_and!; [lia| |done].
      by replace (j - i)%nat with (S (j - S i)) by lia.
Qed.

(** Every section that misses is among them, at its position. *)
Lemma missing_from_complete (db : Store) (bitIdx : N) (l : list N) :
  ∀ (i k : nat) (s : N),
    l !! k = Some s → misses odr db bitIdx s = true →
    ((i + k)%nat, s) ∈ missing_from odr db bitIdx i l.
Proof.
  induction l as [|s0 l IH]; intros i k s Hk Hm; [done|].
  simpl. destruct k as [|k].
  - injection Hk as ->. rewrite Hm, Nat.add_0_r. by left.
  - simpl in Hk. replace (i + S k)%nat with (S i + k)%nat by lia.
    destruct (misses odr db bitIdx s0); [right|]; by apply IH.
Qed.

Lemma missing_from_NoDup (db : Store) (bitIdx : N) (l : list N) :
  ∀ i : nat, NoDup (missing_from odr db bitIdx i l).*1.
Proof.
  induction l as [|s0 l IH]; intros i; simpl; [constructor|].
  destruct (misses odr db bitIdx s0); [|done].
  simpl. constructor; [|done].
  intros Hin. apply list_elem_of_fmap in Hin as ([j s] & Hj & Hin). simpl in Hj.
  subst j. apply missing_from_elem in Hin as (Hle & _). lia.
Qed.

(** The loop over the sections, when it runs to its end: the misses are
    queued with their positions, the hits are in their slots, and every
    other slot is as before. *)
Lemma scan_inl (db : Store) (bitIdx count : N) (l : list N) :
  ∀ (i : nat) (st st' : scan_state),
    scan odr db bitIdx count i l st = inl st' →
    elems (reqList st') = elems (reqList st) ++ (missing_from odr db bitIdx i l).*2
    ∧ elems (reqIdx st') = elems (reqIdx st) ++ (missing_from odr db bitIdx i l).*1
    ∧ (missing_from odr db bitIdx i l = [] → reqList st' = reqList st)
    ∧ (missing_from odr db bitIdx i l ≠ [] → is_Some (reqList st'))
    ∧ length (result st') = length (result st)
    ∧ (∀ k s b, l !! k = Some s → local_bits odr db bitIdx s = (b, None) →
         (i + k < length (result st))%nat →
         result st' !! (i + k)%nat = Some b)
    ∧ (∀ j, (j < i)%nat
            ∨ (∃ k s, j = (i + k)%nat ∧ l !! k = Some s
                      ∧ misses odr db bitIdx s = true)
            ∨ (i + length l ≤ j)%nat →
         result st' !! j = result st !! j).
Proof.
  induction l as [|s0 l IH]; intros i st st' Hscan.
  - injection Hscan as <-. simpl. rewrite !(right_id_L [] (++)).
    split_and!; done.
  - simpl in Hscan. simpl. unfold misses.
    destruct (local_bits odr db bitIdx s0) as [b0 [e|]] eqn:Hloc.
    + (* a miss *)
      case_bool_decide; [done|].
      apply IH in Hscan as (Hl & Hi & _ & _ & Hlen & Hhit & Hkeep).
      simpl in Hl, Hi, Hlen, Hhit, Hkeep.
      split_and!.
      * by rewrite Hl, <- (assoc_L (++)).
      * by rewrite Hi, <- (assoc_L (++)).
      * done.
      * intros _. destruct (reqList st') as [rl|]; [by eexists|].
        simpl in Hl. by destruct (elems (reqList st)).
      * done.
      * intros [|k] s b Hk Hb Hlt.
        -- injection Hk as ->. rewrite Hloc in Hb. done.
        -- replace (i + S k)%nat with (S i + k)%nat by lia.
           apply (Hhit k s b); [done|done|lia].
      * intros j [Hj | [(k & s & -> & Hk & Hm) | Hj]].
        -- apply Hkeep. left. lia.
        -- destruct k as [|k].
           ++ apply Hkeep. left. lia.
           ++ apply Hkeep. right. left. exists k, s. split_and!; [lia|done|done].
        -- apply Hkeep. right. right. simpl in Hj. lia.
    + (* a hit *)
      apply IH in Hscan as (Hl & Hi & Hnil & Hsome & Hlen & Hhit & Hkeep).
      simpl in Hl, Hi, Hnil, Hsome, Hlen, Hhit, Hkeep.
      rewrite length_insert in Hlen, Hhit.
      split_and!; [done..| |].
      * intros [|k] s b Hk Hb Hlt.
        -- injection Hk as ->. rewrite Hloc in Hb. injection Hb as ->.
           rewrite Nat.add_0_r in *. rewrite Hkeep by (left; lia).
           by apply list_lookup_insert_eq.
        -- replace (i + S k)%nat with (S i + k)%nat by lia.
           apply (Hhit k s b); [done|done|lia].
      * intros j [Hj | [(k & s & -> & Hk & Hm) | Hj]].
        -- rewrite Hkeep by (left; lia). apply list_lookup_insert_ne. lia.
        -- destruct k as [|k].
           ++ injection Hk as ->. unfold misses in Hm. by rewrite Hloc in Hm.
           ++ rewrite Hkeep; [apply list_lookup_insert_ne; lia|].
              right. left. exists k, s. split_and!; [lia|done|done].
        -- simpl in Hj. rewrite Hkeep by (right; right; lia).
           apply list_lookup_insert_ne. lia.
Qed.

(** The scatter of a response: every queued position gets the vector that
    stands in the response where the position stands in the queue, and the
    other slots are as before. *)
Lemma scatter_Some (bits : list (slice byte)) (idxs : list nat) :
  ∀ (i : nat) (res res' : list (slice byte)),
    scatter bits i idxs res = Some res' →
    NoDup idxs →
    length res' = length res
    ∧ (∀ k idx, idxs !! k = Some idx → (idx < length res)%nat →
         ∃ b, bits !! (i + k)%nat = Some b ∧ res' !! idx = Some b)
    ∧ (∀ j, j ∉ idxs → res' !! j = res !! j).
Proof.
  induction idxs as [|idx0 idxs IH]; intros i res res' Hsc Hnd.
  - injection Hsc as <-. split_and!; [done|done|done].
  - simpl in Hsc. destruct (bits !! i) as [b0|] eqn:Hb0; [|done].
    apply NoDup_cons in Hnd as [Hnotin Hnd].
    apply IH in Hsc as (Hlen & Hput & Hkeep); [|done].
    rewrite length_insert in Hlen, Hput.
    split_and!; [done| |].
    + intros [|k] idx Hk Hlt.
      * injection Hk as ->. exists b0. rewrite Nat.add_0_r. split; [done|].
        rewrite Hkeep by done. by apply list_lookup_insert_eq.
      * replace (i + S k)%nat with (S i + k)%nat by lia. by apply Hput.
    + intros j Hj. apply not_elem_of_cons in Hj as [Hne Hj].
      rewrite Hkeep by done. by apply list_lookup_insert_ne.
Qed.

(** C2: when [GetBloomBits] succeeds, the result has one slot for every
    requested section, in request order.  A section found locally has its
    stored vector in its own slot.  When no section misses, the call
    returns in the world it was called in: nothing was sent.  Otherwise
    exactly one request was sent, for the missing sections in request
    order, and the vector at place [k] of the response is in the slot of
    the section queued at place [k], which is the position that section has
    in the request.  The database is never written. *)
Theorem GetBloomBits_slots (bitIdx : N) (sectionIdxList : slice N)
    (w w' : World) (res : slice (slice byte)) :
  GetBloomBits odr bitIdx sectionIdxList w = Returns (res, None) w' →
  ∃ slots,
    res = Some slots
    ∧ length slots = len sectionIdxList
    ∧ Database w' = Database w
    ∧ (∀ j s b, elems sectionIdxList !! j = Some s →
         local_bits odr (Database w) bitIdx s = (b, None) → slots !! j = Some b)
    ∧ (∀ j s, elems sectionIdxList !! j = Some s →
         misses odr (Database w) bitIdx s = true →
         (j, s) ∈ missing_from odr (Database w) bitIdx 0 (elems sectionIdxList))
    ∧ match missing_from odr (Database w) bitIdx 0 (elems sectionIdxList) with
      | [] => w' = w
      | ms =>
          ∃ req r,
            events w' = EvRetrieve (ReqBloom req) :: events w
            ∧ SectionIndexList req = Some ms.*2
            ∧ BitIdx req = bitIdx
            ∧ FastRetrieve odr KBloom req = (r, None)
            ∧ ∀ k j s, ms !! k = Some (j, s) →
                elems sectionIdxList !! j = Some s
                ∧ ∃ b, elems (BloomBits r) !! k = Some b ∧ slots !! j = Some b
      end.
Proof.
  unfold GetBloomBits. run.
  destruct (reconcile odr (Database w)) as [b|]; [|done].
  destruct (scan odr (Database w) bitIdx (bloomTrieCount b) 0 (elems sectionIdxList) _)
    as [st|e] eqn:Hscan; [|by intros [= ]].
  apply scan_inl in Hscan as (Hl & Hi & Hnil & Hsome & Hlen & Hhit & Hkeep).
  simpl in Hl, Hi, Hnil, Hsome, Hlen, Hhit, Hkeep.
  rewrite length_replicate in Hlen, Hhit.
  assert (len sectionIdxList = length (elems sectionIdxList)) as Hlenl
    by (by destruct sectionIdxList).
  assert (∀ j s, elems sectionIdxList !! j = Some s →
            misses odr (Database w) bitIdx s = true →
            (j, s) ∈ missing_from odr (Database w) bitIdx 0 (elems sectionIdxList))
    as Hcomplete.
  { intros j s Hj Hm. by apply (missing_from_complete _ _ _ 0%nat j s). }
  destruct (reqList st) as [rl|] eqn:Hrl.
  - (* some sections are missing: one request *)
    destruct (FastRetrieve odr KBloom _) as [r [e|]] eqn:Hret; [by intros [= ]|].
    destruct (scatter _ _ _ _) as [slots|] eqn:Hsc; [|done].
    intros [= <- <-].
    apply scatter_Some in Hsc as (Hslen & Hput & Hskeep);
      [|rewrite Hi; apply missing_from_NoDup].
    exists slots. split_and!; [done|congruence|done| |done|].
    + intros j s b0 Hj Hb0. rewrite Hskeep.
      * apply (Hhit j s b0 Hj Hb0). rewrite Hlenl. by eapply lookup_lt_Some.
      * rewrite Hi. intros Hin.
        apply list_elem_of_fmap in Hin as ([j' s'] & Hj' & Hin). simpl in Hj'. subst j'.
        apply missing_from_elem in Hin as (_ & Hs' & Hm).
        rewrite Nat.sub_0_r, Hj in Hs'. injection Hs' as <-.
        unfold misses in Hm. by rewrite Hb0 in Hm.
    + destruct (missing_from odr (Database w) bitIdx 0 (elems sectionIdxList))
        as [|m ms] eqn:Hms.
      { specialize (Hnil eq_refl). congruence. }
      eexists _, r. split_and!; [reflexivity| |reflexivity|exact Hret|].
      * simpl. f_equal. simpl in Hl. done.
      * intros k j s Hk.
        assert ((j, s) ∈ m :: ms) as Hin by (by eapply list_elem_of_lookup_2).
        rewrite <- Hms in Hin.
        apply missing_from_elem in Hin as (_ & Hs & _). rewrite Nat.sub_0_r in Hs.
        split; [done|].
        destruct (Hput k j) as (b0 & Hb0 & Hslot).
        { rewrite Hi, list_lookup_fmap, Hk. done. }
        { rewrite Hlen, Hlenl. by eapply lookup_lt_Some. }
        exists b0. by split.
  - (* nothing is missing: the local result *)
    intros [= <- <-]. exists (result st).
    assert (missing_from odr (Database w) bitIdx 0 (elems sectionIdxList) = []) as Hms.
    { destruct (missing_from _ _ _ _ _) as [|m ms] eqn:Hms; [done|].
      destruct Hsome as [? ?]; done. }
    split_and!; [done|by rewrite Hlen|done| |done|by rewrite Hms].
    intros j s b0 Hj Hb0. apply (Hhit j s b0 Hj Hb0).
    rewrite Hlenl. by eapply lookup_lt_Some.
Qed.

End bloom_facts.

(** ** Concrete runs *)

Lemma GetHeaderByNumber_recorded_witness :
  GetHeaderByNumber (H := example_types) 5 (example_world store_7)
    = Returns (Some (7, 5), None) (example_world store_7)
  ∧ GetHeaderByNumber (H := example_types) 5 (example_world store_broken)
    = Panics "Canonical hash present but header not found".
Proof.
  split.
  - apply (GetHeaderByNumber_recorded (H := example_types) 5 (example_world store_7)).
    vm_compute. discriminate.
  - apply (GetHeaderByNumber_recorded (H := example_types) 5 (example_world store_broken)).
    vm_compute. discriminate.
Defined.

Lemma reconciliation_terminates_witness :
  reconcile example_odr store_reorg
    = Some {| bloomTrieCount := 11; sectionHeadNum := 43;
              sectionHead := 499; canonicalHash := 499 |}
  ∧ ∃ b', reconcile_loop example_odr 12 store_reorg example_indexer
            (recorded store_reorg example_indexer) = Some b'
          ∧ bloomTrieCount b' < 12.
Proof.
  split; [vm_compute; reflexivity|].
  destruct (reconciliation_terminates (H := example_types)
              example_odr store_reorg example_indexer)
    as ((b' & Hrun & Hlt & _) & _); [vm_compute; reflexivity|].
  exists b'. split; [exact Hrun|exact Hlt].
Defined.

Lemma GetBloomBits_slots_witness :
  ∃ w' slots,
    GetBloomBits example_odr 3 (Some [10; 11]) (example_world store_bloom)
      = Returns (Some [Some [Byte.x0a]; Some [Byte.xff]], None) w'
    ∧ events w'
      = [EvRetrieve (ReqBloom {| BloomTrieRoot := 0; BloomTrieNum := 11; BitIdx := 3;
                                 SectionIndexList := Some [11];
                                 Config := {| BloomSize := 4; BloomTrieSize := 4 |};
                                 BloomBits := None |})]
    ∧ Some [Some [Byte.x0a]; Some [Byte.xff]] = Some slots
    ∧ length slots = 2%nat
    ∧ slots !! 0%nat = Some (Some [Byte.x0a]).
Proof.
  eexists. 
  assert (GetBloomBits example_odr 3 (Some [10; 11]) (example_world store_bloom)
          = Returns (Some [Some [Byte.x0a]; Some [Byte.xff]], None) _) as Hrun
    by (vm_compute; reflexivity).
  destruct (GetBloomBits_slots (H := example_types) example_odr 3 (Some [10; 11])
              (example_world store_bloom) _ _ Hrun)
    as (slots & Hres & Hlen & _ & Hhit & _).
  exists slots. split_and!; [exact Hrun|reflexivity|exact Hres|exact Hlen|].
  apply (Hhit 0%nat 10); [reflexivity|vm_compute; reflexivity].
Defined.

Lemma GetBloomBits_untrusted_miss_witness :
  GetBloomBits example_odr 3 (Some [10; 12]) (example_world store_bloom)
    = Returns (None, Some ErrNoTrustedBloomTrie) (example_world store_bloom).
Proof.
  apply (GetBloomBits_untrusted_miss (H := example_types) example_odr 3 (Some [10; 12])
           (example_world store_bloom)
           {| bloomTrieCount := 12; sectionHeadNum := 47;
              sectionHead := 500; canonicalHash := 0 |} 1%nat 12).
  - vm_compute. reflexivity.
  - reflexivity.
  - vm_compute. reflexivity.
  - vm_compute. discriminate.
Defined.

(** C4, as stated, fails: the response reports transaction 42 as included
    in the block with hash 9 at height 5, the canonical header at height 5
    has the hash 7, and [GetTransaction] does not fail: it returns a nil
    error, with a nil transaction. *)
Lemma GetTransaction_mismatch_not_failed :
  StatusList (FastRetrieve example_odr KTxStatus (status_request 42)).1
    = Some [{| Status := TxStatusIncluded;
               Lookup := Some {| BlockHash := 9; BlockIndex := 5; Index := 0 |} |}]
  ∧ GetHeaderByNumber (H := example_types) 5 (example_world store_7)
    = Returns (Some (7, 5), None) (example_world store_7)
  ∧ Header_Hash (ChainTypes := example_types) (7, 5) ≠ 9
  ∧ GetTransaction example_odr 42 (example_world store_7)
    = Returns (no_transaction None)
        (after [EvRetrieve (ReqTxStatus (status_request 42))] (example_world store_7))
  ∧ ¬ failed (GetTransaction example_odr 42 (example_world store_7)).
Proof.
  split_and!.
  - vm_compute. reflexivity.
  - vm_compute. reflexivity.
  - vm_compute. discriminate.
  - vm_compute. reflexivity.
  - vm_compute. tauto.
Qed.

Lemma GetTransaction_rejects_locator_witness :
  GetTransaction example_odr 42 (example_world store_7)
    = Returns (no_transaction None)
        (after [EvRetrieve (ReqTxStatus (status_request 42))] (example_world store_7))
  ∧ GetTransaction example_odr 42 (example_world store_9_no_tx)
    = Returns (no_transaction None)
        (after [EvRetrieve (ReqTxStatus (status_request 42))]
           (example_world store_9_no_tx))
  ∧ GetTransaction example_odr 42 (example_world store_9)
    = Returns (no_transaction None)
        (after [EvRetrieve (ReqTxStatus (status_request 42))] (example_world store_9)).
Proof.
  pose (pos := {| BlockHash := 9; BlockIndex := 5; Index := 0 |}).
  pose (st := {| Status := TxStatusIncluded; Lookup := Some pos |}).
  pose (r := (FastRetrieve example_odr KTxStatus (status_request 42)).1).
  split_and!.
  - destruct (GetTransaction_rejects_locator (H := example_types) example_odr 42
                (example_world store_7) r st [] pos (7, 5)) as [Hhash _].
    + vm_compute. reflexivity.
    + vm_compute. reflexivity.
    + reflexivity.
    + reflexivity.
    + vm_compute. discriminate.
    + vm_compute. reflexivity.
    + apply Hhash. vm_compute. discriminate.
  - destruct (GetTransaction_rejects_locator (H := example_types) example_odr 42
                (example_world store_9_no_tx) r st [] pos (9, 5)) as [_ Hbody].
    + vm_compute. reflexivity.
    + vm_compute. reflexivity.
    + reflexivity.
    + reflexivity.
    + vm_compute. discriminate.
    + vm_compute. reflexivity.
    + eapply Hbody.
      * vm_compute. reflexivity.
      * vm_compute. reflexivity.
      * left. vm_compute. discriminate.
  - destruct (GetTransaction_rejects_locator (H := example_types) example_odr 42
                (example_world store_9) r st [] pos (9, 5)) as [_ Hbody].
    + vm_compute. reflexivity.
    + vm_compute. reflexivity.
    + reflexivity.
    + reflexivity.
    + vm_compute. discriminate.
    + vm_compute. reflexivity.
    + eapply Hbody.
      * vm_compute. reflexivity.
      * vm_compute. reflexivity.
      * right. exists 1. split; [vm_compute; reflexivity|vm_compute; discriminate].
Defined.

(** The locator is accepted when everything agrees: transaction 1 has the
    hash 2 and is the first of the stored body. *)
Example GetTransaction_found :
  GetTransaction example_odr 2 (example_world store_9)
    = Returns (Some 1, 9, 5, 0, None)
        (after [EvRetrieve (ReqTxStatus (status_request 2))] (example_world store_9)).
Proof. vm_compute. reflexivity. Qed.




Lemma header_resolution_is_local_witness :
  GetHeaderByNumber (H := example_types) 5 (example_world store_empty)
    = Returns (None, None) (example_world store_empty)
  ∧ GetBlock example_odr 9 5 (example_world store_empty)
    = Returns (None, Some ErrNoHeader) (example_world store_empty).
Proof.
  destruct (header_resolution_is_local (H := example_types) example_odr 9 5
              (example_world store_empty)) as (_ & Hnum & Hblock & _).
  split.
  - apply Hnum. vm_compute. reflexivity.
  - apply Hblock. vm_compute. reflexivity.
Defined.

(** With the header stored and the body missing, [GetBlock] sends the body
    request, and nothing else. *)
Example GetBlock_fetches_body :
  ∃ block,
    GetBlock example_odr 7 5 (example_world store_7)
      = Returns (Some block, None)
          (after [EvRetrieve (body_request 7 5)] (example_world store_7))
    ∧ block_transactions block = [1; 2].
Proof. eexists. split; vm_compute; reflexivity. Qed.

(** The untrusted logs of a block whose receipts are not stored: the logs
    of the response, one untrusted request, and the same database. *)
Example GetUntrustedBlockLogs_run :
  GetUntrustedBlockLogs (H := example_types) example_odr (7, 5) (example_world store_7)
    = Returns (Some [Some [1]; Some [2]], None)
        (after [EvRetrieve (ReqReceipts (untrusted_request (H := example_types) (7, 5)))]
           (example_world store_7)).
Proof. vm_compute. reflexivity. Qed.

(** * Further properties *)

(** ** The memory database: single operations *)

Section memorydb_operations.
Import memorydb.

Lemma entry_Put_other (d : MemoryDatabase) (key key' value : slice byte) :
  string_of_key key' ≠ string_of_key key →
  entry (Put d key value).1 key' = entry d key'.
Proof.
  intros Hne. unfold entry, Put.
  destruct (db d) as [m|] eqn:Hm; simpl; [|by rewrite Hm].
  apply lookup_insert_ne. by apply not_eq_sym.
Qed.

Lemma entry_string (d : MemoryDatabase) (key key' : slice byte) :
  string_of_key key' = string_of_key key → entry d key' = entry d key.
Proof. intros Heq. unfold entry. by rewrite Heq. Qed.

Lemma entry_Delete_same (d : MemoryDatabase) (key : slice byte) :
  entry (Delete d key).1 key = None.
Proof.
  unfold entry, Delete. destruct (db d) as [m|] eqn:Hm; simpl; [|by rewrite Hm].
  by rewrite lookup_delete_eq.
Qed.

Lemma entry_Delete_other (d : MemoryDatabase) (key key' : slice byte) :
  string_of_key key' ≠ string_of_key key →
  entry (Delete d key).1 key' = entry d key'.
Proof.
  intros Hne. unfold entry, Delete.
  destruct (db d) as [m|] eqn:Hm; simpl; [|by rewrite Hm].
  apply lookup_delete_ne. by apply not_eq_sym.
Qed.

Lemma db_Put (d : MemoryDatabase) (key value : slice byte) :
  is_Some (db d) → is_Some (db (Put d key value).1).
Proof. intros [m Hm]. unfold Put. rewrite Hm. by eexists. Qed.

Lemma db_Delete (d : MemoryDatabase) (key : slice byte) :
  is_Some (db d) → is_Some (db (Delete d key).1).
Proof. intros [m Hm]. unfold Delete. rewrite Hm. by eexists. Qed.

(** X1: on an open database [Put] succeeds, and then [Get] returns the
    value under every key that spells the same string, the nil and the
    empty key being one key; the answers for all other keys are as
    before. *)
Theorem Put_then_Get (d : MemoryDatabase) (key value : slice byte) :
  is_Some (db d) →
  (Put d key value).2 = None
  ∧ (∀ key', string_of_key key' = string_of_key key →
       Get (Put d key value).1 key' = (value, None))
  ∧ (∀ key', string_of_key key' ≠ string_of_key key →
       Get (Put d key value).1 key' = Get d key').
Proof.
  intros Hopen. split_and!.
  - destruct Hopen as [m Hm]. unfold Put. by rewrite Hm.
  - intros key' Heq. rewrite Get_entry, (entry_string _ _ _ Heq).
    by rewrite entry_Put_same, CopyBytes_same.
  - intros key' Hne. rewrite !Get_entry, (entry_Put_other _ _ _ _ Hne).
    destruct (db_Put d key value Hopen) as [m' ->]. by destruct Hopen as [m ->].
Qed.

Lemma Put_then_Get_witness :
  Get (Put New None (Some [Byte.x01])).1 (Some []) = (Some [Byte.x01], None)
  ∧ Get (Put New None (Some [Byte.x01])).1 (Some [Byte.x6b])
    = (None, Some errMemorydbNotFound).
Proof.
  destruct (Put_then_Get New None (Some [Byte.x01])) as (_ & Hsame & Hother);
    [by eexists|].
  split.
  - apply Hsame. reflexivity.
  - rewrite Hother by (vm_compute; discriminate). vm_compute. reflexivity.
Defined.

(** X2: on an open database [Delete] succeeds whether or not the key is
    there; afterwards [Get] of the key fails with the not-found error and
    [Has] answers false, the answers for all other keys are as before, and
    deleting a key that is not there leaves the database as it is. *)
Theorem Delete_then_Get (d : MemoryDatabase) (key : slice byte) :
  is_Some (db d) →
  (Delete d key).2 = None
  ∧ Get (Delete d key).1 key = (None, Some errMemorydbNotFound)
  ∧ Has (Delete d key).1 key = (false, None)
  ∧ (∀ key', string_of_key key' ≠ string_of_key key →
       Get (Delete d key).1 key' = Get d key')
  ∧ (entry d key = None → (Delete d key).1 = d).
Proof.
  intros [m Hm]. split_and!.
  - unfold Delete. by rewrite Hm.
  - unfold Get, Delete. rewrite Hm. simpl. by rewrite lookup_delete_eq.
  - unfold Has, Delete. rewrite Hm. simpl. by rewrite lookup_delete_eq.
  - intros key' Hne. unfold Get, Delete. rewrite Hm. simpl.
    by rewrite lookup_delete_ne by (by apply not_eq_sym).
  - unfold entry, Delete. rewrite Hm. simpl. intros Hnone.
    rewrite delete_id by done. destruct d. simpl in Hm. by subst.
Qed.

Lemma Delete_then_Get_witness :
  Get (Delete (Put New (Some [Byte.x6b]) (Some [Byte.x01])).1 (Some [Byte.x6b])).1
    (Some [Byte.x6b]) = (None, Some errMemorydbNotFound)
  ∧ (Delete New (Some [Byte.x6b])).1 = New.
Proof.
  split.
  - apply (Delete_then_Get (Put New (Some [Byte.x6b]) (Some [Byte.x01])).1
             (Some [Byte.x6b])). by eexists.
  - apply (Delete_then_Get New (Some [Byte.x6b])); [by eexists|reflexivity].
Defined.

(** X3: [Has] and [Get] agree: [Has] answers true exactly when [Get]
    returns a nil error; on an open database a missing key is no error for
    [Has], while [Get] reports it as not found; and [Has] returns an error
    exactly when the database is closed. *)
Theorem Has_agrees_with_Get (d : MemoryDatabase) (key : slice byte) :
  ((Has d key).1 = true ↔ (Get d key).2 = None)
  ∧ (Has d key = (false, None) ↔ Get d key = (None, Some errMemorydbNotFound))
  ∧ ((Has d key).2 = Some errMemorydbClosed ↔ db d = None)
  ∧ ((Has d key).2 = None ↔ is_Some (db d)).
Proof.
  unfold Has, Get. destruct (db d) as [m|]; simpl.
  - destruct (m !! string_of_key key) as [e|]; simpl;
      split_and!; split; intros; simplify_eq; try done; by eexists.
  - split_and!; split; intros Hx; simplify_eq; try done; try by destruct Hx.
Qed.

(** X4: closing sets the map to nil and returns no error, also on a closed
    database; afterwards [Has], [Get], [Put] and [Delete] all return the
    closed-database error and leave the database closed, while [Len]
    answers zero and an iterator shows nothing; no sequence of [Put] and
    [Delete] opens the database again. *)
Theorem closed_database (d : MemoryDatabase) (key value prefix : slice byte) :
  let c := (Close d).1 in
  (Close d).2 = None
  ∧ Close c = (c, None)
  ∧ Has c key = (false, Some errMemorydbClosed)
  ∧ Get c key = (None, Some errMemorydbClosed)
  ∧ Put c key value = (c, Some errMemorydbClosed)
  ∧ Delete c key = (c, Some errMemorydbClosed)
  ∧ Len c = 0%nat
  ∧ keys (NewIteratorWithPrefix c prefix) = []
  ∧ ∀ ops, direct ops c = c.
Proof.
  cbn zeta. split_and!; try reflexivity.
  intros ops. induction ops as [|o ops IH]; [done|].
  unfold direct in *. simpl. by destruct o.
Qed.

(** X5: [Len] counts the keys: the new database has none, [Put] adds one
    exactly when the key was not there, and [Delete] takes one away exactly
    when it was. *)
Theorem Len_counts_keys (d : MemoryDatabase) (key value : slice byte) :
  is_Some (db d) →
  Len New = 0%nat
  ∧ Len (Put d key value).1
    = (if entry d key is Some _ then Len d else S (Len d))
  ∧ Len (Delete d key).1
    = (if entry d key is Some _ then Nat.pred (Len d) else Len d).
Proof.
  intros [m Hm]. unfold Len, Put, Delete, entry. rewrite Hm. simpl. split_and!.
  - done.
  - destruct (m !! string_of_key key) eqn:Hk.
    + by rewrite map_size_insert_Some.
    + by rewrite map_size_insert_None.
  - destruct (m !! string_of_key key) eqn:Hk.
    + rewrite map_size_delete_Some by done. lia.
    + by rewrite map_size_delete_None.
Qed.

Lemma Len_counts_keys_witness :
  Len (Put (Put New (Some [Byte.x6b]) None).1 (Some [Byte.x6b]) (Some [])).1 = 1%nat
  ∧ Len (Delete New (Some [Byte.x6b])).1 = 0%nat.
Proof.
  split.
  - destruct (Len_counts_keys (Put New (Some [Byte.x6b]) None).1 (Some [Byte.x6b])
                (Some [])) as (_ & -> & _); [by eexists|].
    vm_compute. reflexivity.
  - destruct (Len_counts_keys New (Some [Byte.x6b]) None) as (_ & _ & ->);
      [by eexists|].
    vm_compute. reflexivity.
Defined.

End memorydb_operations.

(** ** The memory database: batches *)

Section memorydb_batches.
Import memorydb.

Lemma last_write_cons (key : string) (kv : keyvalue) (ws : list keyvalue) :
  last_write key (kv :: ws) =
    match last_write key ws with
    | Some kv' => Some kv'
    | None => if decide (string_of_key (kv_key kv) = key) then Some kv else None
    end.
Proof.
  unfold last_write. rewrite filter_cons. case_decide; [|by destruct (last _)].
  by rewrite last_cons.
Qed.

(** On a map that is not nil the loop of [Write] runs to its end, and what
    it leaves under a key is what the last queued write for the key says,
    or what was there when no write concerns the key. *)
Lemma apply_writes_open (ws : list keyvalue) :
  ∀ m : gmap string (slice byte),
    ∃ m', apply_writes ws (Some m) = Ok (Some m')
      ∧ ∀ key, m' !! key =
          match last_write key ws with
          | Some kv => if kv_delete kv then None else Some (kv_value kv)
          | None => m !! key
          end.
Proof.
  induction ws as [|kv ws IH]; intros m.
  - exists m. split; [done|]. intros key. by unfold last_write.
  - simpl. destruct (kv_delete kv) eqn:Hdel.
    + destruct (IH (delete (string_of_key (kv_key kv)) m)) as (m' & Hrun & Hlook).
      exists m'. split; [done|]. intros key. rewrite Hlook, last_write_cons.
      destruct (last_write key ws) as [kv'|]; [done|].
      case_decide as Hk; [subst key; by rewrite Hdel, lookup_delete_eq|].
      by rewrite lookup_delete_ne.
    + destruct (IH (<[string_of_key (kv_key kv) := kv_value kv]> m))
        as (m' & Hrun & Hlook).
      exists m'. split; [done|]. intros key. rewrite Hlook, last_write_cons.
      destruct (last_write key ws) as [kv'|]; [done|].
      case_decide as Hk; [subst key; by rewrite Hdel, lookup_insert_eq|].
      by rewrite lookup_insert_ne.
Qed.

Lemma writes_queue (ops : list write_op) :
  ∀ b, writes (queue ops b) = writes b ++ (keyvalue_of <$> ops).
Proof.
  induction ops as [|o ops IH]; intros b.
  - unfold queue. simpl. by rewrite (right_id_L [] (++)).
  - unfold queue in *. simpl. rewrite IH. destruct o; simpl;
      by rewrite <- (assoc_L (++)).
Qed.

Lemma apply_writes_direct (ops : list write_op) :
  ∀ m : gmap string (slice byte),
    apply_writes (keyvalue_of <$> ops) (Some m)
    = Ok (db (direct ops {| db := Some m |})).
Proof.
  induction ops as [|o ops IH]; intros m; [done|].
  unfold direct in *. destruct o as [key value|key]; simpl;
    unfold string_of_key at 1; rewrite CopyBytes_same; apply IH.
Qed.

(** X6: writing a batch to an open database gives the database that the
    queued puts and deletes give when they are made on it directly, one
    after the other, and returns no error. *)
Theorem batch_Write_as_direct (ops : list write_op) (d : MemoryDatabase) :
  is_Some (db d) →
  batch_Write (queue ops NewBatch) d = Ok (direct ops d, None).
Proof.
  intros [m Hm]. unfold batch_Write. rewrite writes_queue, Hm. simpl.
  rewrite apply_writes_direct. destruct d as [dm]. simpl in Hm. subst dm.
  by destruct (direct ops {| db := Some m |}).
Qed.

Lemma batch_Write_as_direct_witness :
  batch_Write
    (queue [OpPut (Some [Byte.x6b]) (Some [Byte.x01]); OpDelete (Some [Byte.x6b]);
            OpPut (Some [Byte.x6c]) None] NewBatch) New
  = Ok ((Put New (Some [Byte.x6c]) None).1, None).
Proof.
  rewrite (batch_Write_as_direct _ New) by (by eexists).
  vm_compute. reflexivity.
Defined.

(** X7: after a batch is written to an open database, [Get] of a key
    answers what the last queued write for that key says: the value of a
    put, not found after a delete; a key that no queued write concerns is
    answered as before. *)
Theorem batch_last_write_wins (b : memoryBatch) (d : MemoryDatabase) :
  is_Some (db d) →
  ∃ d', batch_Write b d = Ok (d', None)
    ∧ is_Some (db d')
    ∧ ∀ key, Get d' key =
        match last_write (string_of_key key) (writes b) with
        | Some kv =>
            if kv_delete kv then (None, Some errMemorydbNotFound)
            else (kv_value kv, None)
        | None => Get d key
        end.
Proof.
  intros [m Hm]. destruct (apply_writes_open (writes b) m) as (m' & Hrun & Hlook).
  exists {| db := Some m' |}. unfold batch_Write. rewrite Hm, Hrun.
  split_and!; [done|by eexists|].
  intros key. unfold Get. simpl. rewrite Hm, Hlook.
  destruct (last_write (string_of_key key) (writes b)) as [kv|]; [|done].
  destruct (kv_delete kv); [done|]. by rewrite CopyBytes_same.
Qed.

Lemma batch_last_write_wins_witness :
  ∃ d',
    batch_Write
      (queue [OpPut (Some [Byte.x6b]) (Some [Byte.x01]);
              OpPut (Some [Byte.x6b]) (Some [Byte.x02])] NewBatch) New
    = Ok (d', None)
    ∧ Get d' (Some [Byte.x6b]) = (Some [Byte.x02], None).
Proof.
  destruct (batch_last_write_wins
              (queue [OpPut (Some [Byte.x6b]) (Some [Byte.x01]);
                      OpPut (Some [Byte.x6b]) (Some [Byte.x02])] NewBatch) New)
    as (d' & Hrun & _ & Hget); [by eexists|].
  exists d'. split; [exact Hrun|]. rewrite Hget. vm_compute. reflexivity.
Defined.

Lemma apply_writes_closed (ws : list keyvalue) :
  (Forall (λ kv, kv_delete kv = true) ws → apply_writes ws None = Ok None)
  ∧ (Exists (λ kv, kv_delete kv = false) ws →
       apply_writes ws None = Panic "assignment to entry in nil map").
Proof.
  induction ws as [|kv ws [IHall IHex]]; split.
  - done.
  - intros Hex. by apply Exists_nil in Hex.
  - intros Hall. apply Forall_cons in Hall as [Hkv Hall]. simpl. rewrite Hkv.
    by apply IHall.
  - intros Hex. simpl. destruct (kv_delete kv) eqn:Hkv; [|done].
    apply Exists_cons in Hex as [Hhere|Hex]; [congruence|by apply IHex].
Qed.

(** X8: [Write] does not check whether the host is closed.  On a closed
    database a batch of deletes only is written without an error and
    without effect, and a batch with at least one put panics. *)
Theorem batch_Write_closed (b : memoryBatch) (d : MemoryDatabase) :
  db d = None →
  (Forall (λ kv, kv_delete kv = true) (writes b) → batch_Write b d = Ok (d, None))
  ∧ (Exists (λ kv, kv_delete kv = false) (writes b) →
       batch_Write b d = Panic "assignment to entry in nil map").
Proof.
  intros Hd. destruct d as [dm]. simpl in Hd. subst dm.
  destruct (apply_writes_closed (writes b)) as [Hall Hex].
  unfold batch_Write. simpl. split.
  - intros H. by rewrite (Hall H).
  - intros H. by rewrite (Hex H).
Qed.

Lemma batch_Write_closed_witness :
  batch_Write (queue [OpDelete (Some [Byte.x6b])] NewBatch) (Close New).1
    = Ok ((Close New).1, None)
  ∧ batch_Write (queue [OpPut (Some [Byte.x6b]) None] NewBatch) (Close New).1
    = Panic "assignment to entry in nil map".
Proof.
  split.
  - apply (batch_Write_closed _ (Close New).1); [reflexivity|].
    vm_compute. by repeat constructor.
  - apply (batch_Write_closed _ (Close New).1); [reflexivity|].
    vm_compute. by repeat constructor.
Defined.

(** X9: [Write] leaves the batch as it is, and writing it a second time
    changes nothing: the database after the second write is the database
    after the first. *)
Theorem batch_Write_twice (b : memoryBatch) (d d1 : MemoryDatabase)
    (e : option error) :
  is_Some (db d) →
  batch_Write b d = Ok (d1, e) →
  batch_Write b d1 = Ok (d1, None).
Proof.
  intros [m Hm] Hfirst. unfold batch_Write in *. rewrite Hm in Hfirst.
  destruct (apply_writes_open (writes b) m) as (m1 & Hrun1 & Hlook1).
  rewrite Hrun1 in Hfirst. injection Hfirst as <- <-. simpl.
  destruct (apply_writes_open (writes b) m1) as (m2 & Hrun2 & Hlook2).
  rewrite Hrun2. assert (m2 = m1) as ->; [|done]. apply map_eq. intros key.
  rewrite Hlook2, Hlook1. by destruct (last_write key (writes b)).
Qed.

Lemma batch_Write_twice_witness :
  batch_Write (queue [OpPut (Some [Byte.x6b]) (Some [Byte.x01])] NewBatch)
    (Put New (Some [Byte.x6b]) (Some [Byte.x01])).1
  = Ok ((Put New (Some [Byte.x6b]) (Some [Byte.x01])).1, None).
Proof.
  apply (batch_Write_twice _ New _ None); [by eexists|].
  vm_compute. reflexivity.
Defined.

Lemma wrap_int_add (a z : Z) :
  wrap_int (wrap_int a + z) = wrap_int (a + z).
Proof.
  unfold wrap_int.
  replace ((a + 2 ^ 63) mod 2 ^ 64 - 2 ^ 63 + z + 2 ^ 63)%Z
    with ((a + 2 ^ 63) mod 2 ^ 64 + z)%Z by lia.
  rewrite Zplus_mod_idemp_l. do 2 f_equal. lia.
Qed.

Lemma batch_size_queue (ops : list write_op) :
  ∀ b, batch_size (queue ops b) = wrap_int (wrap_int (batch_size b) + total_size ops)
     ∨ (ops = [] ∧ batch_size (queue ops b) = batch_size b).
Proof.
  induction ops as [|o ops IH]; intros b; [by right|left].
  unfold queue in *. simpl.
  destruct (IH (queue_op b o)) as [-> | [-> ->]].
  - rewrite !wrap_int_add. destruct o; simpl; rewrite !wrap_int_add; f_equal; lia.
  - simpl. destruct o; simpl; rewrite !wrap_int_add; f_equal; lia.
Qed.

(** X10: [ValueSize] of a batch filled from [NewBatch] is the sum of the
    lengths of the values put and of one for every delete, as a 64-bit
    [int]; [Reset] brings it back to zero and empties the batch, so that
    writing the batch then leaves any host as it is. *)
Theorem ValueSize_counts (ops : list write_op) (d : MemoryDatabase) :
  ValueSize (queue ops NewBatch) = wrap_int (total_size ops)
  ∧ ValueSize (Reset (queue ops NewBatch)) = 0%Z
  ∧ batch_Write (Reset (queue ops NewBatch)) d = Ok (d, None).
Proof.
  split_and!.
  - unfold ValueSize. destruct (batch_size_queue ops NewBatch) as [-> | [-> ->]].
    + by rewrite wrap_int_add.
    + done.
  - done.
  - by destruct d.
Qed.

End memorydb_batches.

(** ** The memory database: iterators *)

Section memorydb_iterators.
Import memorydb.

Lemma ascii_compare_N (a b : Ascii.ascii) :
  Ascii.compare a b = N.compare (Ascii.N_of_ascii a) (Ascii.N_of_ascii b).
Proof. done. Qed.

Lemma string_leb_trans (s1 s2 s3 : string) :
  String.leb s1 s2 = true → String.leb s2 s3 = true → String.leb s1 s3 = true.
Proof.
  unfold String.leb. revert s2 s3.
  induction s1 as [|a s1 IH]; intros [|b s2] [|c s3]; simpl; try done.
  rewrite !ascii_compare_N.
  destruct (N.compare_spec (Ascii.N_of_ascii a) (Ascii.N_of_ascii b)) as [Hab|Hab|Hab];
    destruct (N.compare_spec (Ascii.N_of_ascii b) (Ascii.N_of_ascii c)) as [Hbc|Hbc|Hbc];
    destruct (N.compare_spec (Ascii.N_of_ascii a) (Ascii.N_of_ascii c)) as [Hac|Hac|Hac];
    try done; try lia.
  apply IH.
Qed.

Global Instance string_le_total : Total string_le.
Proof. intros s1 s2. apply String.leb_total. Qed.

Global Instance string_le_trans : Transitive string_le.
Proof. intros s1 s2 s3. apply string_leb_trans. Qed.

Lemma string_of_key_bytes (key : string) :
  string_of_key (Some (String.list_byte_of_string key)) = key.
Proof. unfold string_of_key. simpl. apply String.string_of_list_byte_of_string. Qed.

Lemma iterator_keys_elem (d : MemoryDatabase) (prefix : slice byte) (key : string) :
  key ∈ keys (NewIteratorWithPrefix d prefix) ↔
    String.prefix (string_of_key prefix) key = true
    ∧ is_Some (entry d (Some (String.list_byte_of_string key))).
Proof.
  unfold NewIteratorWithPrefix. cbn [keys].
  rewrite merge_sort_Permutation, list_elem_of_filter, list_elem_of_fmap.
  unfold entry. rewrite string_of_key_bytes. split.
  - intros [Hp ([k v] & -> & Hkv)]. apply elem_of_map_to_list in Hkv.
    split; [done|]. simpl. destruct (db d) as [m|]; simpl in *; [by eexists|].
    by rewrite lookup_empty in Hkv.
  - intros [Hp [v Hv]]. split; [done|]. exists (key, v). split; [done|].
    apply elem_of_map_to_list. by destruct (db d).
Qed.

Lemma iterator_values (d : MemoryDatabase) (prefix : slice byte) :
  inited (NewIteratorWithPrefix d prefix) = false
  ∧ length (values (NewIteratorWithPrefix d prefix))
    = length (keys (NewIteratorWithPrefix d prefix))
  ∧ (∀ i key value,
       keys (NewIteratorWithPrefix d prefix) !! i = Some key →
       values (NewIteratorWithPrefix d prefix) !! i = Some value →
       entry d (Some (String.list_byte_of_string key)) = Some value).
Proof.
  split_and!.
  - done.
  - unfold NewIteratorWithPrefix. cbn [keys values]. by rewrite length_fmap.
  - intros i key value Hk Hv.
    assert (key ∈ keys (NewIteratorWithPrefix d prefix)) as Hin
      by (by eapply list_elem_of_lookup_2).
    apply iterator_keys_elem in Hin as [_ [v Hentry]]. rewrite Hentry. f_equal.
    unfold NewIteratorWithPrefix in Hk, Hv. cbn [keys values] in Hk, Hv.
    rewrite list_lookup_fmap, Hk in Hv. simpl in Hv. injection Hv as <-.
    unfold entry in Hentry. rewrite string_of_key_bytes in Hentry.
    destruct (db d) as [m|]; simpl in Hentry; [|done].
    pose proof (f_equal (default None) Hentry) as Hd. symmetry. exact Hd.
Qed.

(** X11: an iterator holds exactly the keys of the database that start
    with the prefix, each once and in ascending order of their bytes, and
    with every key the value that is stored under it; on a closed database
    it holds nothing. *)
Theorem iterator_contents (d : MemoryDatabase) (prefix : slice byte) :
  let it := NewIteratorWithPrefix d prefix in
  inited it = false
  ∧ StronglySorted string_le (keys it)
  ∧ NoDup (keys it)
  ∧ (∀ key, key ∈ keys it ↔
       String.prefix (string_of_key prefix) key = true
       ∧ is_Some (entry d (Some (String.list_byte_of_string key))))
  ∧ length (values it) = length (keys it)
  ∧ (∀ i key value, keys it !! i = Some key → values it !! i = Some value →
       entry d (Some (String.list_byte_of_string key)) = Some value).
Proof.
  cbn zeta. destruct (iterator_values d prefix) as (Hinit & Hlen & Hval).
  split_and!.
  - done.
  - unfold NewIteratorWithPrefix. cbn [keys].
    apply StronglySorted_merge_sort; apply _.
  - unfold NewIteratorWithPrefix. cbn [keys]. rewrite merge_sort_Permutation.
    apply NoDup_filter, NoDup_fst_map_to_list.
  - apply iterator_keys_elem.
  - done.
  - done.
Qed.

Lemma drain_inited (ks : list string) :
  ∀ (vs : list (slice byte)) (fuel : nat),
    length vs = length ks → (length ks ≤ fuel)%nat → fuel ≠ 0%nat →
    drain fuel {| inited := true; keys := ks; values := vs |}
    = (drop 1 (remaining {| inited := true; keys := ks; values := vs |}), true).
Proof.
  induction ks as [|k ks IH]; intros vs fuel Hlen Hfuel Hpos.
  - destruct fuel as [|fuel]; [done|]. by destruct vs.
  - destruct vs as [|v vs]; [done|]. destruct fuel as [|fuel]; [done|].
    simpl in Hlen, Hfuel. unfold remaining. simpl.
    destruct ks as [|k' ks]; [by destruct vs|].
    destruct vs as [|v' vs]; [done|].
    cbn [drain Next inited keys values tail length].
    rewrite bool_decide_true by (simpl; lia).
    rewrite (IH (v' :: vs) fuel) by (simpl in *; lia). done.
Qed.

(** X12: the loop [for it.Next()] over a fresh iterator ends after one
    round more than there are keys, having shown every key with its value
    once, in the order of the keys; and every pair it shows is what [Get]
    answers for the key on the database the iterator was made from. *)
Theorem iterator_drain (d : MemoryDatabase) (prefix : slice byte) :
  let it := NewIteratorWithPrefix d prefix in
  drain (S (length (keys it))) it = (remaining it, true)
  ∧ length (remaining it) = length (keys it)
  ∧ ∀ key value, (key, value) ∈ remaining it → Get d key = (value, None).
Proof.
  cbn zeta. destruct (iterator_values d prefix) as (Hinit & Hlen & Hval).
  set (it := NewIteratorWithPrefix d prefix) in *.
  split_and!.
  - destruct it as [ini ks vs]. simpl in Hinit, Hlen. subst ini.
    cbn [drain Next inited keys values].
    destruct ks as [|k ks]; [by destruct vs|]. destruct vs as [|v vs]; [done|].
    rewrite bool_decide_true by (simpl; lia).
    rewrite drain_inited by (simpl in *; lia). done.
  - unfold remaining. rewrite length_zip_with, length_fmap. lia.
  - intros key value Hin. unfold remaining in Hin.
    apply list_elem_of_lookup in Hin as [i Hi].
    apply lookup_zip_with_Some in Hi as (kb & v & [= <- <-] & Hk & Hv).
    rewrite list_lookup_fmap in Hk.
    destruct (keys it !! i) as [k|] eqn:Hki; [|done]. injection Hk as <-.
    rewrite Get_entry, (Hval i k value Hki Hv). by rewrite CopyBytes_same.
Qed.

End memorydb_iterators.

(** A database with the keys "b", "ab" and "a": the iterator for the prefix
    "a" shows "a" and then "ab". *)
Example iterator_run :
  let d := direct [OpPut (Some [Byte.x62]) (Some [Byte.x01]);
                            OpPut (Some [Byte.x61; Byte.x62]) (Some [Byte.x02]);
                            OpPut (Some [Byte.x61]) (Some [Byte.x03])] memorydb.New in
  memorydb.drain 5 (memorydb.NewIteratorWithPrefix d (Some [Byte.x61]))
  = ([(Some [Byte.x61], Some [Byte.x03]);
      (Some [Byte.x61; Byte.x62], Some [Byte.x02])], true).
Proof. vm_compute. reflexivity. Qed.

(** ** Chain configuration *)

Section params_facts.
Import params.

Lemma isForked_later (s : option Z) (head head' : Z) :
  isForked s (Some head) = true → (head ≤ head')%Z → isForked s (Some head') = true.
Proof.
  intros Hf Hle. destruct s as [s|]; [|done]. simpl in *.
  apply bool_decide_eq_true in Hf. apply bool_decide_eq_true. lia.
Qed.

(** X13: a fork that is active at a head block is active at every later
    head block; a fork that is not scheduled is never active, and no fork
    is active at an unknown head. *)
Theorem isForked_monotone (s : option Z) (head head' : Z) :
  isForked s (Some head) = true → (head ≤ head')%Z →
  isForked s (Some head') = true
  ∧ isForked None (Some head') = false
  ∧ isForked s None = false.
Proof.
  intros Hf Hle. split_and!.
  - destruct s as [s|]; [|done]. simpl in *.
    apply bool_decide_eq_true in Hf. apply bool_decide_eq_true. lia.
  - done.
  - by destruct s.
Qed.

Lemma isForked_monotone_witness :
  isForked (Some 1500000%Z) (Some 1500001%Z) = true.
Proof.
  apply (isForked_monotone (Some 1500000%Z) 1500000%Z 1500001%Z);
    [vm_compute; reflexivity|lia].
Defined.

Lemma configNumEqual_true (x y : option Z) :
  configNumEqual x y = true → x = y.
Proof.
  unfold configNumEqual. destruct x as [x|], y as [y|];
    rewrite bool_decide_eq_true; intros; simplify_eq; done.
Qed.

Lemma configNumEqual_refl (x : option Z) : configNumEqual x x = true.
Proof. unfold configNumEqual. destruct x; by rewrite bool_decide_eq_true. Qed.

(** X14: [configNumEqual] decides whether two scheduled blocks are the
    same: two numbers with the same value, or both nil. *)
Theorem configNumEqual_iff (x y : option Z) :
  configNumEqual x y = true ↔ x = y.
Proof.
  unfold configNumEqual. destruct x as [x|], y as [y|];
    rewrite bool_decide_eq_true; split; intros; simplify_eq; done.
Qed.

Lemma isForked_true (s head : option Z) :
  isForked s head = true ↔ ∃ a h, s = Some a ∧ head = Some h ∧ (a ≤ h)%Z.
Proof.
  unfold isForked. destruct s as [a|], head as [h|]; try (split; [done|]).
  - rewrite bool_decide_eq_true. split; [by eexists _, _|].
    by intros (? & ? & [= <-] & [= <-] & ?).
  - by intros (? & ? & ? & ? & ?).
  - by intros (? & ? & ? & ? & ?).
  - by intros (? & ? & ? & ? & ?).
Qed.

(** X15: rescheduling a fork from [s1] to [s2] is incompatible exactly
    when the two differ and one of them is already active at the head; the
    check does not depend on which of the two is the stored one, and what is
    incompatible at a head stays incompatible at every later head. *)
Theorem isForkIncompatible_iff (s1 s2 head : option Z) :
  (isForkIncompatible s1 s2 head = true ↔
     s1 ≠ s2 ∧ (isForked s1 head = true ∨ isForked s2 head = true))
  ∧ isForkIncompatible s1 s2 head = isForkIncompatible s2 s1 head
  ∧ (∀ h h', head = Some h → (h ≤ h')%Z →
       isForkIncompatible s1 s2 head = true →
       isForkIncompatible s1 s2 (Some h') = true).
Proof.
  assert (∀ a b hd, isForkIncompatible a b hd = true ↔
            a ≠ b ∧ (isForked a hd = true ∨ isForked b hd = true)) as Hiff.
  { intros a b hd. unfold isForkIncompatible.
    rewrite andb_true_iff, orb_true_iff, negb_true_iff.
    rewrite <- not_true_iff_false.
    assert (configNumEqual a b = true ↔ a = b) as ->; [|tauto].
    split; [apply configNumEqual_true|intros ->; apply configNumEqual_refl]. }
  split_and!.
  - apply Hiff.
  - apply eq_true_iff_eq. rewrite !Hiff. split; intros [Hne Hf]; split; try tauto;
      by apply not_eq_sym.
  - intros h h' -> Hle. rewrite !Hiff. intros [Hne Hf]. split; [done|].
    rewrite !isForked_true in *.
    destruct Hf as [(a & x & -> & [= <-] & Hax) | (a & x & -> & [= <-] & Hax)];
      [left|right]; exists a, h'; split_and!; try done; lia.
Qed.

Lemma two64_value : two64 = 18446744073709551616.
Proof. vm_compute. reflexivity. Qed.

Lemma sub64_Uint64_pred (r : Z) :
  (0 < r < 2 ^ 64)%Z → sub64 (Uint64 r) 1 = N.pred (Z.to_N r).
Proof.
  intros Hr. unfold sub64, Uint64. rewrite two64_value.
  rewrite Z.abs_eq by lia.
  assert (Z.to_N r < 18446744073709551616) as Hlt by lia.
  rewrite (N.mod_small (Z.to_N r)) by done. rewrite (N.mod_small 1) by lia.
  replace (Z.to_N r + 18446744073709551616 - 1)
    with (N.pred (Z.to_N r) + 1 * 18446744073709551616) by lia.
  rewrite N.Div0.mod_add. apply N.mod_small. lia.
Qed.

(** X16: for block numbers that fit in 64 bits, the error made by
    [newCompatError] asks to rewind to the block before the earlier of the
    two scheduled blocks, and to block zero when that block is zero or when
    neither is scheduled; it keeps the two block numbers as given. *)
Theorem newCompatError_rewind (what : string) (storedblock newblock : option Z) :
  (∀ z, storedblock = Some z ∨ newblock = Some z → (0 ≤ z < 2 ^ 64)%Z) →
  RewindTo (newCompatError what storedblock newblock)
    = match earliest storedblock newblock with
      | Some z => N.pred (Z.to_N z)
      | None => 0
      end
  ∧ StoredConfig (newCompatError what storedblock newblock) = storedblock
  ∧ NewConfig (newCompatError what storedblock newblock) = newblock.
Proof.
  intros Hrange. split_and!; [|done|done].
  assert (∀ z, (0 ≤ z < 2 ^ 64)%Z →
            (if bool_decide (0 < z)%Z then sub64 (Uint64 z) 1 else 0)
            = N.pred (Z.to_N z)) as Hpred.
  { intros z Hz. case_bool_decide.
    - apply sub64_Uint64_pred. lia.
    - assert (z = 0%Z) as -> by lia. done. }
  unfold newCompatError, earliest. cbn [RewindTo].
  destruct storedblock as [s|], newblock as [n|].
  - pose proof (Hrange s (or_introl eq_refl)). pose proof (Hrange n (or_intror eq_refl)).
    case_bool_decide.
    + rewrite Z.min_l by lia. by apply Hpred.
    + rewrite Z.min_r by lia. by apply Hpred.
  - apply Hpred, Hrange. by left.
  - apply Hpred, Hrange. by right.
  - done.
Qed.

Lemma newCompatError_rewind_witness :
  RewindTo (newCompatError "TIP3 fork block" (Some 1500000%Z) (Some 450000%Z)) = 449999
  ∧ RewindTo (newCompatError "TIP3 fork block" None (Some 0%Z)) = 0.
Proof.
  split.
  - destruct (newCompatError_rewind "TIP3 fork block" (Some 1500000%Z) (Some 450000%Z))
      as (-> & _); [|vm_compute; reflexivity].
    intros z [[= <-] | [= <-]]; lia.
  - destruct (newCompatError_rewind "TIP3 fork block" None (Some 0%Z))
      as (-> & _); [|vm_compute; reflexivity].
    intros z [[= ] | [= <-]]; lia.
Defined.

(** X17: TIP3 is active from the fast number of its block on, and TIP5 from
    the snail number of its block on: a rule active at a block number is
    active at every later one, and a configuration without the block, or
    without that number in the block, never activates the rule. *)
Theorem IsTIP_monotone (c : ChainConfig) (num num' : Z) :
  (num ≤ num')%Z →
  (IsTIP3 c (Some num) = true → IsTIP3 c (Some num') = true)
  ∧ (IsTIP5 c (Some num) = true → IsTIP5 c (Some num') = true)
  ∧ (IsTIP3 c (Some num) = true ↔
       ∃ tip f, TIP3 c = Some tip ∧ FastNumber tip = Some f ∧ (f ≤ num)%Z)
  ∧ (IsTIP5 c (Some num) = true ↔
       ∃ tip f, TIP5 c = Some tip ∧ SnailNumber tip = Some f ∧ (f ≤ num)%Z).
Proof.
  intros Hle. unfold IsTIP3, IsTIP5. split_and!.
  - destruct (TIP3 c) as [tip|]; [|done]. intros Hf.
    by apply (isForked_later _ num num').
  - destruct (TIP5 c) as [tip|]; [|done]. intros Hf.
    by apply (isForked_later _ num num').
  - destruct (TIP3 c) as [tip|]; [|split; [done|by intros (? & ? & ? & _)]].
    rewrite isForked_true. split.
    + intros (a & h & Ha & [= <-] & Hah). by exists tip, a.
    + intros (? & f & [= <-] & Hf & Hfn). by exists f, num.
  - destruct (TIP5 c) as [tip|]; [|split; [done|by intros (? & ? & ? & _)]].
    rewrite isForked_true. split.
    + intros (a & h & Ha & [= <-] & Hah). by exists tip, a.
    + intros (? & f & [= <-] & Hf & Hfn). by exists f, num.
Qed.

End params_facts.

(** ** Bodies, blocks and logs *)

Section body_facts.
Context `{ChainTypes}.
Variable odr : OdrBackend.

(** X19: [GetBody] returns either a body and a nil error or no body and an
    error, never both and never neither; the body is what the decoder makes
    of the raw body, and an error of the decoder is returned as it is. *)
Theorem GetBody_result (hash : Hash) (number : N) (w : World) :
  ∃ data err w',
    GetBodyRLP odr hash number w = Returns (data, err) w'
    ∧ match err with
      | Some e => GetBody odr hash number w = Returns (None, Some e) w'
      | None =>
          match rlp_DecodeBody (elems data) with
          | (Some e, _) => GetBody odr hash number w = Returns (None, Some e) w'
          | (None, (txs, signs, infos)) =>
              GetBody odr hash number w =
                Returns (Some {| Transactions := txs; Signs := signs;
                                 Infos := infos |}, None) w'
          end
      end.
Proof.
  destruct (GetBodyRLP_summary odr hash number (Database w))
    as ([data err] & evs & _ & _ & Hrun).
  exists data, err, (after evs w). split; [by apply Hrun|].
  unfold GetBody. run. rewrite (Hrun w eq_refl). destruct err as [e|]; [done|].
  by destruct (rlp_DecodeBody (elems data)) as [[e|] [[txs signs] infos]].
Qed.

(** [GetBody] returns a body or an error, and only one of them. *)
Lemma GetBody_cases (hash : Hash) (number : N) (db : Store) :
  ∃ res evs,
    ((∃ body, res = (Some body, None)) ∨ (∃ e, res = (None, Some e)))
    ∧ ∀ w, Database w = db → GetBody odr hash number w = Returns res (after evs w).
Proof.
  destruct (GetBodyRLP_summary odr hash number db) as ([data err] & evs & _ & _ & Hrun).
  destruct err as [e|].
  - exists (None, Some e), evs. split; [right; by eexists|].
    intros w Hw. unfold GetBody. run. by rewrite (Hrun w Hw).
  - destruct (rlp_DecodeBody (elems data)) as [[e|] [[txs signs] infos]] eqn:Hdec.
    + exists (None, Some e), evs. split; [right; by eexists|].
      intros w Hw. unfold GetBody. run. rewrite (Hrun w Hw), Hdec. by run.
    + exists (Some {| Transactions := txs; Signs := signs; Infos := infos |}, None), evs.
      split; [left; by eexists|].
      intros w Hw. unfold GetBody. run. rewrite (Hrun w Hw), Hdec. by run.
Qed.

(** X20: [GetBlock] returns either a block and a nil error or no block and
    an error.  The block has the header that is stored under the hash and
    the number, and the transactions, signs and infos of the body that
    [GetBody] resolves; the hash of the stored header is not compared with
    the hash asked for. *)
Theorem GetBlock_result (hash : Hash) (number : N) (w : World) :
  ∃ res w',
    GetBlock odr hash number w = Returns res w'
    ∧ match res with
      | (Some block, None) =>
          ReadHeader (Database w) hash number = Some (block_header block)
          ∧ ∃ body, GetBody odr hash number w = Returns (Some body, None) w'
              ∧ block_transactions block = Transactions body
              ∧ block_signs block = Signs body
              ∧ block_infos block = Infos body
      | (None, Some e) =>
          (ReadHeader (Database w) hash number = None ∧ e = ErrNoHeader ∧ w' = w)
          ∨ (is_Some (ReadHeader (Database w) hash number)
             ∧ GetBody odr hash number w = Returns (None, Some e) w')
      | _ => False
      end.
Proof.
  destruct (GetBody_cases hash number (Database w)) as (res & evs & Hres & Hrun).
  pose proof (Hrun w eq_refl) as Hbody.
  unfold GetBlock. run.
  destruct (ReadHeader (Database w) hash number) as [header|] eqn:Hhd; run.
  - rewrite Hbody. run. destruct Hres as [[body ->] | [e ->]]; run.
    + eexists (Some _, None), _. split; [done|]. cbn. split; [done|]. by exists body.
    + eexists (None, Some e), _. split; [done|]. right. by split; [eexists|].
  - eexists (None, Some ErrNoHeader), _. split; [done|]. by left.
Qed.

(** X21: for a block whose receipts are stored with their derived fields,
    [GetBlockLogs] and [GetUntrustedBlockLogs] return the same logs, one
    list for every stored receipt in the order of the receipts, and neither
    sends a request, derives anything or writes. *)
Theorem logs_of_stored_receipts (header : Header) (rs : list Receipt) (w : World) :
  ReadRawReceipts (Database w) (Header_Hash header) (Header_Number header) = Some rs →
  underived (Some rs) = false →
  GetBlockLogs odr (Header_Hash header) (Header_Number header) w
    = Returns (Some (Receipt_Logs <$> rs), None) w
  ∧ GetUntrustedBlockLogs odr header w = Returns (Some (Receipt_Logs <$> rs), None) w
  ∧ length (Receipt_Logs <$> rs) = length rs.
Proof.
  intros Hread Hund. split_and!.
  - unfold GetBlockLogs, GetBlockReceipts, raw_receipts. run. rewrite Hread. run.
    by rewrite Hund.
  - unfold GetUntrustedBlockLogs. run. by rewrite Hread.
  - by rewrite length_fmap.
Qed.

End body_facts.

Lemma logs_of_stored_receipts_witness :
  GetBlockLogs example_odr 9 5 (example_world store_9_receipts)
    = Returns (Some [Some [1]; Some [2]], None) (example_world store_9_receipts)
  ∧ GetUntrustedBlockLogs (H := example_types) example_odr (9, 5)
      (example_world store_9_receipts)
    = Returns (Some [Some [1]; Some [2]], None) (example_world store_9_receipts).
Proof.
  destruct (logs_of_stored_receipts (H := example_types) example_odr (9, 5)
              [(2, [1]); (3, [2])] (example_world store_9_receipts))
    as (Hlogs & Huntrusted & _).
  - vm_compute. reflexivity.
  - vm_compute. reflexivity.
  - split; [exact Hlogs|exact Huntrusted].
Defined.

(** ** More on the transaction locator *)

Section transaction_extras.
Context `{ChainTypes}.
Variable odr : OdrBackend.

Lemma GetBody_Database (hash : Hash) (number : N) (v v' : World)
    (res : option Body * option error) :
  GetBody odr hash number v = Returns res v' → Database v' = Database v.
Proof.
  destruct (GetBody_cases odr hash number (Database v)) as (res0 & evs & _ & Hrun).
  rewrite (Hrun v eq_refl). by intros [= _ <-].
Qed.

(** X22: when [GetTransaction] returns a transaction, the error is nil, the
    transaction hashes to the hash asked for, the position returned is the
    locator of an included status in the response, and the transaction
    stands at the returned index of the body resolved for that block.  The
    header pointer that [GetHeaderByNumber] resolves at the returned height
    hashes to the block hash returned: where a canonical hash is recorded
    the pointer is the stored canonical header, and where none is recorded
    the pointer is nil and [Hash()] of the nil header is that block hash. *)
Theorem GetTransaction_validated (txHash : Hash) (w w' : World) (tx : Transaction)
    (bh : Hash) (bn idx : N) (err : option error) :
  GetTransaction odr txHash w = Returns (Some tx, bh, bn, idx, err) w' →
  let w1 := after [EvRetrieve (ReqTxStatus (status_request txHash))] w in
  err = None
  ∧ Transaction_Hash tx = txHash
  ∧ (∃ r st sts,
        FastRetrieve odr KTxStatus (status_request txHash) = (r, None)
        ∧ elems (StatusList r) = st :: sts
        ∧ Status st = TxStatusIncluded
        ∧ Lookup st = Some {| BlockHash := bh; BlockIndex := bn; Index := idx |})
  ∧ (∃ header,
        GetHeaderByNumber bn w1 = Returns (header, None) w1
        ∧ pointer_Hash header = Some bh
        ∧ (ReadCanonicalHash (Database w) bn ≠ zeroHash →
             ∃ h, header = Some h
                  ∧ ReadHeader (Database w) (ReadCanonicalHash (Database w) bn) bn
                    = Some h
                  ∧ Header_Hash h = bh)
        ∧ (ReadCanonicalHash (Database w) bn = zeroHash →
             header = None ∧ nil_Header_Hash = Some bh))
  ∧ ∃ body,
      GetBody odr bh bn w1 = Returns (Some body, None) w'
      ∧ Transactions body !! N.to_nat idx = Some tx.
Proof.
  intros Hrun w1. revert Hrun.
  unfold GetTransaction. run. fold (status_request txHash).
  destruct (FastRetrieve odr KTxStatus (status_request txHash)) as [r [e|]] eqn:Hret;
    [by intros [= ]|].
  destruct (elems (StatusList r)) as [|st sts] eqn:Hsts; [by intros [= ]|].
  case_bool_decide as Hincl; [by intros [= ]|].
  destruct (Lookup st) as [pos|] eqn:Hpos; [|by intros [= ]].
  destruct (GetHeaderByNumber (BlockIndex pos) _) as [[header herr] w2| |] eqn:Hhd;
    [|done|done].
  pose proof (GetHeaderByNumber_world _ _ _ _ Hhd) as ->.
  destruct herr as [e|]; [by intros [= ]|].
  destruct (pointer_Hash header) as [hash|] eqn:Hph; [|by intros [= ]].
  case_bool_decide as Hhash; [by intros [= ]|].
  destruct (GetBody odr (BlockHash pos) (BlockIndex pos) _) as [[body berr] w3| |]
    eqn:Hbody; [|done|done].
  destruct berr as [e|]; [by intros [= ]|]. destruct body as [body|]; [|done].
  case_bool_decide; [by intros [= ]|].
  destruct (Transactions body !! N.to_nat (Index pos)) as [tx'|] eqn:Htx; [|done].
  case_bool_decide as Hh; [by intros [= ]|].
  intros [= -> <- <- <- <- <-].
  assert (Status st = TxStatusIncluded) as Hst
    by (by destruct (decide (Status st = TxStatusIncluded))).
  assert (hash = BlockHash pos) as ->
    by (by destruct (decide (hash = BlockHash pos))).
  split_and!.
  - done.
  - by destruct (decide (Transaction_Hash tx = txHash)).
  - exists r, st, sts. split_and!; [done..|]. by destruct pos.
  - exists header. split_and!.
    + exact Hhd.
    + done.
    + intros Hcanon.
      destruct (ReadHeader (Database w) (ReadCanonicalHash (Database w) (BlockIndex pos))
                  (BlockIndex pos)) as [hd|] eqn:Hread.
      * assert (Returns (header, @None error) w1 = Returns (Some hd, None) w1) as Heq.
        { transitivity (GetHeaderByNumber (BlockIndex pos) w1);
            [symmetry; exact Hhd|].
          exact (GetHeaderByNumber_stored (BlockIndex pos) w1 hd Hcanon Hread). }
        injection Heq as ->. exists hd. split_and!; [done|done|]. by injection Hph.
      * exfalso.
        assert (GetHeaderByNumber (BlockIndex pos) w1
                = Panics "Canonical hash present but header not found") as Hp.
        { unfold GetHeaderByNumber. run. unfold w1. rewrite !Database_after.
          rewrite bool_decide_true by done. by rewrite Hread. }
        assert (Returns (header, @None error) w1
                = Panics "Canonical hash present but header not found") as Heq
          by (transitivity (GetHeaderByNumber (BlockIndex pos) w1);
              [symmetry; exact Hhd|exact Hp]).
        discriminate Heq.
    + intros Hz.
      assert (Returns (header, @None error) w1 = Returns (None, None) w1) as Heq.
      { transitivity (GetHeaderByNumber (BlockIndex pos) w1);
          [symmetry; exact Hhd|].
        exact (GetHeaderByNumber_unrecorded (BlockIndex pos) w1 Hz). }
      injection Heq as ->. by split.
  - exists body. split; [exact Hbody|done].
Qed.

(** X23: when the status request fails, or its first answer is not the
    status included, [GetTransaction] stops after that one request: it
    returns no transaction together with the error of the request, which is
    nil for a transaction that is not included, and looks up neither header
    nor body. *)
Theorem GetTransaction_not_included (txHash : Hash) (w : World)
    (r : TxStatusRequest) (err : option error) :
  FastRetrieve odr KTxStatus (status_request txHash) = (r, err) →
  is_Some err
  ∨ (∃ st sts, elems (StatusList r) = st :: sts ∧ Status st ≠ TxStatusIncluded) →
  GetTransaction odr txHash w
    = Returns (no_transaction err)
        (after [EvRetrieve (ReqTxStatus (status_request txHash))] w).
Proof.
  intros Hret Hcase. unfold GetTransaction. run. fold (status_request txHash).
  rewrite Hret. destruct err as [e|]; [done|].
  destruct Hcase as [[? [= ]] | (st & sts & -> & Hst)].
  by rewrite bool_decide_true.
Qed.

(** X24: a response that comes without an error but also without any
    status makes [GetTransaction] panic on its first index, and so does an
    included status that comes without a locator. *)
Theorem GetTransaction_malformed_response (txHash : Hash) (w : World)
    (r : TxStatusRequest) :
  FastRetrieve odr KTxStatus (status_request txHash) = (r, None) →
  (elems (StatusList r) = [] →
     GetTransaction odr txHash w = Panics "index out of range")
  ∧ (∀ st sts, elems (StatusList r) = st :: sts →
       Status st = TxStatusIncluded → Lookup st = None →
       GetTransaction odr txHash w
         = Panics "invalid memory address or nil pointer dereference").
Proof.
  intros Hret. split.
  - intros Hnil. unfold GetTransaction. run. fold (status_request txHash).
    by rewrite Hret, Hnil.
  - intros st sts Hsts Hst Hpos. unfold GetTransaction. run.
    fold (status_request txHash). rewrite Hret, Hsts, Hst.
    rewrite bool_decide_false by (intros Hne; by apply Hne). by rewrite Hpos.
Qed.

End transaction_extras.

Lemma GetTransaction_validated_witness :
  Transaction_Hash (ChainTypes := example_types) 1 = 2
  ∧ (∃ header : option (@Header example_types), pointer_Hash header = Some 9)
  ∧ ∃ body : @Body example_types, Transactions body !! 0%nat = Some 1.
Proof.
  destruct (GetTransaction_validated (H := example_types) example_odr 2
              (example_world store_9)
              (after [EvRetrieve (ReqTxStatus (status_request 2))] (example_world store_9))
              1 9 5 0 None)
    as (_ & Hhash & _ & (header & _ & Hheader & _) & body & _ & Htx).
  - vm_compute. reflexivity.
  - split_and!; [exact Hhash|by exists header|]. exists body. exact Htx.
Defined.

(** Where [Hash()] of the nil header gives the claimed block hash, a
    transaction is returned although no canonical hash is recorded at the
    height of the locator. *)
Example GetTransaction_without_header :
  ReadCanonicalHash (Database world_nil) 5 = zeroHash
  ∧ ∃ w', GetTransaction example_odr_nil 1 world_nil
          = Returns (Some 0, 9, 5, 0, None) w'.
Proof. split; [reflexivity|]. eexists. vm_compute. reflexivity. Qed.

Lemma GetTransaction_not_included_witness :
  GetTransaction example_odr_failing 42 (example_world store_9)
    = Returns (no_transaction (Some (ErrOther "request timed out")))
        (after [EvRetrieve (ReqTxStatus (status_request 42))] (example_world store_9)).
Proof.
  apply (GetTransaction_not_included (H := example_types) example_odr_failing 42
           (example_world store_9) (status_request 42)
           (Some (ErrOther "request timed out"))).
  - reflexivity.
  - left. by eexists.
Defined.

Lemma GetTransaction_malformed_response_witness :
  GetTransaction example_odr_silent 42 (example_world store_9)
    = Panics "index out of range".
Proof.
  apply (GetTransaction_malformed_response (H := example_types) example_odr_silent 42
           (example_world store_9) (status_request 42)); reflexivity.
Defined.

(** ** More on bloom bits *)

Section bloom_extras.
Context `{ChainTypes}.
Variable odr : OdrBackend.

(** The loop over the sections runs to its end exactly when every missing
    section lies below the trusted count. *)
Lemma scan_inl_below (db : Store) (bitIdx count : N) (l : list N) :
  ∀ (i : nat) (st st' : scan_state),
    scan odr db bitIdx count i l st = inl st' →
    ∀ p, p ∈ missing_from odr db bitIdx i l → p.2 < count.
Proof.
  induction l as [|s0 l IH]; intros i st st' Hscan p Hp; simpl in *.
  - by apply elem_of_nil in Hp.
  - unfold misses in Hp.
    destruct (local_bits odr db bitIdx s0) as [b0 [e|]].
    + case_bool_decide as Hle; [done|].
      apply elem_of_cons in Hp as [-> | Hp]; [simpl; lia|by eapply IH].
    + by eapply IH.
Qed.

Lemma scan_below_inl (db : Store) (bitIdx count : N) (l : list N) :
  ∀ (i : nat) (st : scan_state),
    (∀ p, p ∈ missing_from odr db bitIdx i l → p.2 < count) →
    ∃ st', scan odr db bitIdx count i l st = inl st'.
Proof.
  induction l as [|s0 l IH]; intros i st Hbelow; simpl in *; [by eexists|].
  unfold misses in Hbelow.
  destruct (local_bits odr db bitIdx s0) as [b0 [e|]].
  - rewrite bool_decide_false.
    + apply IH. intros p Hp. apply Hbelow. by right.
    + pose proof (Hbelow (i, s0) ltac:(by left)) as Hlt. simpl in Hlt. lia.
  - by apply IH.
Qed.

Lemma scatter_short (bits : list (slice byte)) (idxs : list nat) :
  ∀ (i : nat) (res : list (slice byte)),
    (i ≤ length bits)%nat → (length bits < i + length idxs)%nat →
    scatter bits i idxs res = None.
Proof.
  induction idxs as [|idx idxs IH]; intros i res Hi Hlen; simpl in *; [lia|].
  destruct (bits !! i) as [b|] eqn:Hb; [|done].
  apply lookup_lt_Some in Hb. apply IH; lia.
Qed.

(** What [GetBloomBits] does once some section is missing and all missing
    sections lie below the trusted count: it sends the one request and goes
    on from the answer. *)
Lemma GetBloomBits_remote (bitIdx : N) (sectionIdxList : slice N) (w : World)
    (b : boundary) :
  reconcile odr (Database w) = Some b →
  missing_from odr (Database w) bitIdx 0 (elems sectionIdxList) ≠ [] →
  (∀ p, p ∈ missing_from odr (Database w) bitIdx 0 (elems sectionIdxList) →
        p.2 < bloomTrieCount b) →
  ∃ slots0,
    GetBloomBits odr bitIdx sectionIdxList w =
      let ms := missing_from odr (Database w) bitIdx 0 (elems sectionIdxList) in
      let req := bloom_request odr (Database w) bitIdx b ms.*2 in
      let w1 := after [EvRetrieve (ReqBloom req)] w in
      match FastRetrieve odr KBloom req with
      | (_, Some e) => Returns (None, Some e) w1
      | (r, None) =>
          match scatter (elems (BloomBits r)) 0 ms.*1 slots0 with
          | None => Panics "index out of range"
          | Some res => Returns (Some res, None) w1
          end
      end.
Proof.
  intros Hrec Hms Hbelow.
  destruct (scan_below_inl (Database w) bitIdx (bloomTrieCount b)
              (elems sectionIdxList) 0
              {| result := replicate (len sectionIdxList) (None : slice byte);
                 reqList := None; reqIdx := None |} Hbelow) as [st Hscan].
  pose proof (scan_inl odr _ _ _ _ _ _ _ Hscan) as (Hl & Hi & _ & Hsome & _).
  simpl in Hl, Hi. destruct (Hsome Hms) as [rl Hrl].
  rewrite Hrl in Hl. simpl in Hl. subst rl.
  exists (result st). unfold GetBloomBits. run. rewrite Hrec, Hscan, Hrl.
  cbn zeta. unfold bloom_request. run.
  destruct (FastRetrieve odr KBloom _) as [r [e|]]; [done|]. rewrite Hi.
  by destruct (scatter _ _ _ _).
Qed.

(** X25: whenever [GetBloomBits] returns after having sent a request, the
    trusted count is above zero, the request is for the bloom trie with the
    number one below the count, and every section it asks for is a
    requested section that misses locally and lies below the trusted
    count. *)
Theorem GetBloomBits_request_trusted (bitIdx : N) (sectionIdxList : slice N)
    (w w' : World) (res : slice (slice byte) * option error) (req : BloomRequest) :
  GetBloomBits odr bitIdx sectionIdxList w = Returns res w' →
  events w' = EvRetrieve (ReqBloom req) :: events w →
  ∃ b, reconcile odr (Database w) = Some b
    ∧ 0 < bloomTrieCount b
    ∧ BloomTrieNum req = sub64 (bloomTrieCount b) 1
    ∧ BloomTrieNum req < bloomTrieCount b
    ∧ BloomTrieRoot req
      = GetBloomTrieRoot (Database w) (BloomTrieNum req) (sectionHead b)
    ∧ ∀ s, s ∈ elems (SectionIndexList req) →
        s < bloomTrieCount b
        ∧ s ∈ elems sectionIdxList
        ∧ misses odr (Database w) bitIdx s = true.
Proof.
  intros Hrun Hev.
  destruct (reconcile_total odr (Database w)) as [b Hrec]. exists b.
  destruct (scan odr (Database w) bitIdx (bloomTrieCount b) 0 (elems sectionIdxList)
              {| result := replicate (len sectionIdxList) (None : slice byte);
                 reqList := None; reqIdx := None |}) as [st|e] eqn:Hscan; cycle 1.
  { unfold GetBloomBits in Hrun. run. rewrite Hrec, Hscan in Hrun.
    injection Hrun as _ <-. exfalso. revert Hev. clear.
    generalize (events w). intros l Hl.
    apply (f_equal length) in Hl. simpl in Hl. lia. }
  pose proof (scan_inl_below _ _ _ _ _ _ _ Hscan) as Hbelow.
  pose proof (scan_inl odr _ _ _ _ _ _ _ Hscan) as (Hl & _ & Hnil & _).
  simpl in Hl, Hnil.
  destruct (missing_from odr (Database w) bitIdx 0 (elems sectionIdxList))
    as [|m ms] eqn:Hms.
  { unfold GetBloomBits in Hrun. run. rewrite Hrec, Hscan, (Hnil eq_refl) in Hrun.
    injection Hrun as _ <-. exfalso. revert Hev. clear.
    generalize (events w). intros l Hl.
    apply (f_equal length) in Hl. simpl in Hl. lia. }
  destruct (GetBloomBits_remote bitIdx sectionIdxList w b Hrec) as [slots0 Hremote].
  { by rewrite Hms. }
  { by rewrite Hms. }
  rewrite Hms in Hremote. cbn zeta in Hremote. rewrite Hremote in Hrun.
  assert (req = bloom_request odr (Database w) bitIdx b (m :: ms).*2) as ->.
  { destruct (FastRetrieve odr KBloom _) as [r [e|]].
    - injection Hrun as _ <-. rewrite events_after in Hev. by injection Hev as <-.
    - destruct (scatter _ _ _ _); [|done].
      injection Hrun as _ <-. rewrite events_after in Hev. by injection Hev as <-. }
  assert (0 < bloomTrieCount b) as Hpos.
  { pose proof (Hbelow m ltac:(by left)). lia. }
  cbn [bloom_request BloomTrieNum BloomTrieRoot SectionIndexList elems].
  split_and!; [done|done|done|by apply sub64_one_lt|done|].
  intros s Hs. apply list_elem_of_fmap in Hs as ([j s'] & -> & Hin).
  rewrite <- Hms in Hin. split_and!.
  - rewrite <- Hms in Hbelow. by apply (Hbelow (j, s')).
  - apply missing_from_elem in Hin as (_ & Hj & _).
    by eapply list_elem_of_lookup_2.
  - by apply missing_from_elem in Hin as (_ & _ & Hm).
Qed.

(** X26: when the response to the request comes without an error but with
    fewer vectors than sections were asked for, [GetBloomBits] panics on
    the index of the first vector that is not there, and returns neither a
    result nor an error. *)
Theorem GetBloomBits_short_response (bitIdx : N) (sectionIdxList : slice N)
    (w : World) (b : boundary) (r : BloomRequest) :
  let ms := missing_from odr (Database w) bitIdx 0 (elems sectionIdxList) in
  reconcile odr (Database w) = Some b →
  (∀ p, p ∈ ms → p.2 < bloomTrieCount b) →
  FastRetrieve odr KBloom (bloom_request odr (Database w) bitIdx b ms.*2) = (r, None) →
  (length (elems (BloomBits r)) < length ms)%nat →
  GetBloomBits odr bitIdx sectionIdxList w = Panics "index out of range".
Proof.
  intros ms Hrec Hbelow Hret Hshort.
  destruct (GetBloomBits_remote bitIdx sectionIdxList w b Hrec) as [slots0 ->];
    [|done|].
  { intros Hnil. fold ms in Hnil. rewrite Hnil in Hshort. simpl in Hshort. lia. }
  cbn zeta. fold ms. rewrite Hret.
  by rewrite scatter_short by (rewrite ?length_fmap; simpl; lia).
Qed.

(** X27: when the request fails, [GetBloomBits] returns the error of the
    request and no result at all: the vectors it found locally are not
    returned. *)
Theorem GetBloomBits_remote_error (bitIdx : N) (sectionIdxList : slice N)
    (w : World) (b : boundary) (r : BloomRequest) (e : error) :
  let ms := missing_from odr (Database w) bitIdx 0 (elems sectionIdxList) in
  reconcile odr (Database w) = Some b →
  ms ≠ [] →
  (∀ p, p ∈ ms → p.2 < bloomTrieCount b) →
  FastRetrieve odr KBloom (bloom_request odr (Database w) bitIdx b ms.*2) = (r, Some e) →
  GetBloomBits odr bitIdx sectionIdxList w
    = Returns (None, Some e)
        (after [EvRetrieve (ReqBloom (bloom_request odr (Database w) bitIdx b ms.*2))] w).
Proof.
  intros ms Hrec Hms Hbelow Hret.
  destruct (GetBloomBits_remote bitIdx sectionIdxList w b Hrec Hms Hbelow)
    as [slots0 ->].
  cbn zeta. fold ms. by rewrite Hret.
Qed.

(** X28: without a bloom trie indexer the trusted count is zero, so
    [GetBloomBits] never sends a request: it returns in the world it was
    called in, with [ErrNoTrustedBloomTrie] as soon as one requested section
    misses locally and with the stored vectors otherwise. *)
Theorem GetBloomBits_without_indexer (bitIdx : N) (sectionIdxList : slice N)
    (w : World) :
  BloomTrieIndexer odr = None →
  ∃ res,
    GetBloomBits odr bitIdx sectionIdxList w = Returns res w
    ∧ (res = (None, Some ErrNoTrustedBloomTrie) ↔
         ∃ s, s ∈ elems sectionIdxList ∧ misses odr (Database w) bitIdx s = true)
    ∧ (res ≠ (None, Some ErrNoTrustedBloomTrie) →
         ∃ slots, res = (Some slots, None)
                  ∧ length slots = len sectionIdxList).
Proof.
  intros Hnone.
  assert (reconcile odr (Database w)
          = Some {| bloomTrieCount := 0; sectionHeadNum := 0;
                    sectionHead := zeroHash; canonicalHash := zeroHash |}) as Hrec.
  { unfold reconcile. by rewrite Hnone. }
  destruct (decide (missing_from odr (Database w) bitIdx 0 (elems sectionIdxList) = []))
    as [Hms|Hms].
  - destruct (scan_below_inl (Database w) bitIdx 0 (elems sectionIdxList) 0
                {| result := replicate (len sectionIdxList) (None : slice byte);
                   reqList := None; reqIdx := None |}) as [st Hscan].
    { intros p Hp. rewrite Hms in Hp. by apply elem_of_nil in Hp. }
    pose proof (scan_inl odr _ _ _ _ _ _ _ Hscan) as (_ & _ & Hnil & _ & Hlen & _).
    simpl in Hnil, Hlen. rewrite length_replicate in Hlen.
    exists (Some (result st), None). split_and!.
    + unfold GetBloomBits. run. rewrite Hrec. cbn [bloomTrieCount].
      rewrite Hscan, (Hnil Hms). by destruct w.
    + split; [done|]. intros (s & Hs & Hm). exfalso.
      apply list_elem_of_lookup in Hs as [j Hj].
      pose proof (missing_from_complete odr (Database w) bitIdx _ 0%nat j s Hj Hm) as Hin.
      rewrite Hms in Hin. by apply elem_of_nil in Hin.
    + intros _. by exists (result st).
  - destruct (missing_from odr (Database w) bitIdx 0 (elems sectionIdxList))
      as [|[j s] ms] eqn:Heq; [done|].
    assert ((j, s) ∈ missing_from odr (Database w) bitIdx 0 (elems sectionIdxList))
      as Hin by (rewrite Heq; by left).
    apply missing_from_elem in Hin as (_ & Hj & Hm). rewrite Nat.sub_0_r in Hj.
    exists (None, Some ErrNoTrustedBloomTrie). split_and!.
    + unfold GetBloomBits. run. rewrite Hrec. cbn [bloomTrieCount].
      rewrite (scan_untrusted odr _ _ _ _ 0%nat j _ s Hj Hm) by lia. by destruct w.
    + split; [|done]. intros _. exists s. split; [|done].
      by eapply list_elem_of_lookup_2.
    + done.
Qed.

(** X29: the reconciliation always comes to an end, on a boundary for which
    the loop condition is false; the trusted count it leaves is never above
    the count the indexer reports, it is that count when the recorded head
    is the canonical one or the canonical hash is not known, and it is zero
    without an indexer. *)
Theorem reconcile_bounded (db : Store) :
  ∃ b, reconcile odr db = Some b
    ∧ stale b = false
    ∧ match BloomTrieIndexer odr with
      | Some indexer =>
          bloomTrieCount b ≤ bloomTrieCount (recorded db indexer)
          ∧ (stale (recorded db indexer) = false → b = recorded db indexer)
      | None => bloomTrieCount b = 0
      end.
Proof.
  unfold reconcile. destruct (BloomTrieIndexer odr) as [indexer|].
  - destruct (reconcile_loop_ends odr db indexer
                (N.to_nat (bloomTrieCount (recorded db indexer))) (recorded db indexer))
      as (b & Hrun & Hend & Hsame & Hless); [done|].
    exists b. split_and!; [done|done| |done].
    destruct (stale (recorded db indexer)) eqn:Hst.
    + destruct (Hless eq_refl). lia.
    + by rewrite (Hsame eq_refl).
  - eexists. split_and!; [done| |done]. done.
Qed.

End bloom_extras.

Lemma GetBloomBits_request_trusted_witness :
  ∃ b, reconcile example_odr store_bloom = Some b ∧ 0 < bloomTrieCount b.
Proof.
  destruct (GetBloomBits_request_trusted (H := example_types) example_odr 3
              (Some [10; 11]) (example_world store_bloom)
              (after [EvRetrieve (ReqBloom (bloom_request example_odr store_bloom 3
                        {| bloomTrieCount := 12; sectionHeadNum := 47;
                           sectionHead := 500; canonicalHash := 0 |} [11]))]
                 (example_world store_bloom))
              (Some [Some [Byte.x0a]; Some [Byte.xff]], None)
              (bloom_request example_odr store_bloom 3
                 {| bloomTrieCount := 12; sectionHeadNum := 47;
                    sectionHead := 500; canonicalHash := 0 |} [11]))
    as (b & Hrec & Hpos & _).
  - vm_compute. reflexivity.
  - reflexivity.
  - exists b. split; [exact Hrec|exact Hpos].
Defined.

Lemma GetBloomBits_short_response_witness :
  GetBloomBits example_odr_silent 3 (Some [10; 11]) (example_world store_bloom)
    = Panics "index out of range".
Proof.
  apply (GetBloomBits_short_response (H := example_types) example_odr_silent 3
           (Some [10; 11]) (example_world store_bloom)
           {| bloomTrieCount := 12; sectionHeadNum := 47;
              sectionHead := 500; canonicalHash := 0 |}
           (bloom_request example_odr_silent store_bloom 3
              {| bloomTrieCount := 12; sectionHeadNum := 47;
                 sectionHead := 500; canonicalHash := 0 |} [11])).
  - vm_compute. reflexivity.
  - intros p Hp. vm_compute in Hp. apply list_elem_of_singleton in Hp as ->.
    vm_compute. reflexivity.
  - vm_compute. reflexivity.
  - vm_compute. lia.
Defined.

Lemma GetBloomBits_remote_error_witness :
  GetBloomBits example_odr_failing 3 (Some [10; 11]) (example_world store_bloom)
    = Returns (None, Some (ErrOther "request timed out"))
        (after [EvRetrieve (ReqBloom (bloom_request example_odr_failing store_bloom 3
                  {| bloomTrieCount := 12; sectionHeadNum := 47;
                     sectionHead := 500; canonicalHash := 0 |} [11]))]
           (example_world store_bloom)).
Proof.
  apply (GetBloomBits_remote_error (H := example_types) example_odr_failing 3
           (Some [10; 11]) (example_world store_bloom)
           {| bloomTrieCount := 12; sectionHeadNum := 47;
              sectionHead := 500; canonicalHash := 0 |}
           (bloom_request example_odr_failing store_bloom 3
              {| bloomTrieCount := 12; sectionHeadNum := 47;
                 sectionHead := 500; canonicalHash := 0 |} [11])
           (ErrOther "request timed out")).
  - vm_compute. reflexivity.
  - vm_compute. discriminate.
  - intros p Hp. vm_compute in Hp. apply list_elem_of_singleton in Hp as ->.
    vm_compute. reflexivity.
  - vm_compute. reflexivity.
Defined.

Lemma GetBloomBits_without_indexer_witness :
  GetBloomBits example_odr_no_indexer 3 (Some [10; 11]) (example_world store_bloom)
    = Returns (None, Some ErrNoTrustedBloomTrie) (example_world store_bloom)
  ∧ GetBloomBits example_odr_no_indexer 3 (Some [10]) (example_world store_bloom)
    = Returns (Some [Some [Byte.x0a]], None) (example_world store_bloom).
Proof.
  split.
  - destruct (GetBloomBits_without_indexer (H := example_types) example_odr_no_indexer
                3 (Some [10; 11]) (example_world store_bloom) eq_refl)
      as (res & Hrun & Hiff & _).
    rewrite Hrun. f_equal. apply Hiff. exists 11.
    split; [by right; left|vm_compute; reflexivity].
  - destruct (GetBloomBits_without_indexer (H := example_types) example_odr_no_indexer
                3 (Some [10]) (example_world store_bloom) eq_refl)
      as (res & Hrun & _ & _).
    rewrite Hrun. vm_compute in Hrun. by injection Hrun as <-.
Defined.

Lemma IsTIP_monotone_witness :
  params.IsTIP3 params.MainnetChainConfig (Some 1500001%Z) = true
  ∧ params.IsTIP5 params.MainnetChainConfig (Some 12801%Z) = true
  ∧ params.IsTIP3 params.MainnetChainConfig (Some 1499999%Z) = false.
Proof.
  destruct (IsTIP_monotone params.MainnetChainConfig 1500000%Z 1500001%Z)
    as (H3 & _); [lia|].
  destruct (IsTIP_monotone params.MainnetChainConfig 12800%Z 12801%Z)
    as (_ & H5 & _); [lia|].
  split_and!.
  - apply H3. vm_compute. reflexivity.
  - apply H5. vm_compute. reflexivity.
  - vm_compute. reflexivity.
Defined.
